(** * Rate limiting of the Mimecast SDK: a model of [rate_limiting.py]

    The development embeds [RateLimitHandler] of
    [src/mimecast_sdk/rate_limiting.py] and states the properties of the
    design document about it.  It then embeds the caller of the handler,
    [MimecastClient] of [client.py], with [MimecastAuth] of [auth/auth.py],
    and proves further properties of the three.

    Conventions of the embedding.
    - Python [str] is [string], which holds the UTF-8 encoding of the
      text; functions that walk a string work on its list of characters.
      The separators that the code splits and strips on are ASCII, so
      that a byte is as good as a code point there; [int] looks at code
      points.
    - Python [int] is [Z].  Durations and points in time ([float] seconds,
      [datetime], [timedelta]) are exact rationals [Q]: the rounding of
      binary64 is outside the model, and so are time zones.  Where float
      arithmetic or a conversion of the code raises, the model raises.
    - A method of [RateLimitHandler] is a computation in the monad [M]: it
      reads and writes the handler object and the world (clock, transport,
      random source, the record of [time.sleep] calls) and either returns
      a value or raises an exception.
    - Library calls behave as in CPython 3.11 on Linux: [int] raises
      [ValueError] on text that is not an integer literal or has more
      than 4300 digits; [datetime.fromtimestamp] raises [ValueError],
      [OSError] or [OverflowError] out of range; [time.sleep] raises
      [OverflowError] for a duration whose nanoseconds do not fit in 64
      bits, and [ValueError] for a negative one and for one that rounds
      to 2^63 nanoseconds (x86-64); the product of a [float] and an
      [int] raises [OverflowError] when the [int] does not convert to
      [float].  Logging has no effect that the model records. *)

From Stdlib Require Import ZArith QArith Qminmax Qpower String Ascii List Lia Bool.
From Stdlib Require Import Lqa.
From stdpp Require Import base option gmap strings.
Import ListNotations.

Local Open Scope Z_scope.

(** ** The part of [str] that the code uses *)

Module Str.

Definition chars (s : string) : list ascii := list_ascii_of_string s.
Definition of_chars (l : list ascii) : string := string_of_list_ascii l.

(** [s.split(sep)] for a separator of one character: the fields between
    the separators, in order; never an empty list. *)
Fixpoint split_chars (sep : ascii) (l : list ascii) : list (list ascii) :=
  match l with
  | [] => [[]]
  | c :: l' =>
      if Ascii.eqb c sep then [] :: split_chars sep l'
      else match split_chars sep l' with
           | [] => [[c]]
           | f :: fs => (c :: f) :: fs
           end
  end.

(** [s.rstrip(c)]: drops every trailing occurrence of [c]. *)
Fixpoint rstrip_chars (c : ascii) (l : list ascii) : list ascii :=
  match l with
  | [] => []
  | x :: l' =>
      match rstrip_chars c l' with
      | [] => if Ascii.eqb x c then [] else [x]
      | r => x :: r
      end
  end.

(** [sep.join(fields)]. *)
Fixpoint join_chars (sep : list ascii) (fs : list (list ascii)) : list ascii :=
  match fs with
  | [] => []
  | [f] => f
  | f :: fs' => f ++ sep ++ join_chars sep fs'
  end.

(** [l[-n:]] for [n > 0]: the last [n] elements, all of them when the
    list is shorter. *)
Definition last_n {A} (n : nat) (l : list A) : list A :=
  skipn (length l - n) l.

(** [l[0]], with a default for the empty list (which [split] never
    returns). *)
Definition first {A} (d : A) (l : list A) : A := hd d l.

Definition split (sep : ascii) (s : string) : list string :=
  map of_chars (split_chars sep (chars s)).
Definition rstrip (c : ascii) (s : string) : string :=
  of_chars (rstrip_chars c (chars s)).
Definition join (sep : string) (fs : list string) : string :=
  of_chars (join_chars (chars sep) (map chars fs)).

(** The character [c] does not occur in [s]. *)
Definition free_of (c : ascii) (s : string) : bool :=
  forallb (fun x => negb (Ascii.eqb x c)) (chars s).

(** [s] consists of occurrences of [c] only. *)
Definition all_of (c : ascii) (s : string) : bool :=
  forallb (fun x => Ascii.eqb x c) (chars s).

Definition nonempty (s : string) : bool :=
  match s with EmptyString => false | String _ _ => true end.

End Str.

(** ** Exceptions and results *)

(** The two [raise RateLimitExceeded] statements of [handle_request] carry
    different messages; the constructor records which one ran. *)
Inductive RaiseSite := InLoop | AfterLoop.

Inductive exn :=
  | RateLimitExceeded (site : RaiseSite) (endpoint : string) (retries : Z)
  | RequestException (what : string)
  | ValueError
  | TypeError
  | OverflowError
  | OSError.

Definition is_RequestException (e : exn) : bool :=
  match e with RequestException _ => true | _ => false end.

Inductive Result (A : Type) :=
  | Ok (a : A)
  | Raise (e : exn).
Arguments Ok {A} a.
Arguments Raise {A} e.

(** ** Library calls *)

Module Py.

(** The code points of a string.  A [string] holds the UTF-8 encoding of
    the Python [str]; a byte from 128 up that is not part of a well-formed
    UTF-8 sequence stands for the code point of its own number. *)
Definition continuation (b : N) : bool := ((128 <=? b) && (b <=? 191))%N.

Definition two_bytes (b1 b2 : N) : bool :=
  ((194 <=? b1) && (b1 <=? 223))%N && continuation b2.

Definition three_bytes (b1 b2 b3 : N) : bool :=
  (((b1 =? 224) && (160 <=? b2) && (b2 <=? 191)) ||
   ((225 <=? b1) && (b1 <=? 236) && continuation b2) ||
   ((b1 =? 237) && (128 <=? b2) && (b2 <=? 159)) ||
   ((238 <=? b1) && (b1 <=? 239) && continuation b2))%N && continuation b3.

Definition four_bytes (b1 b2 b3 b4 : N) : bool :=
  (((b1 =? 240) && (144 <=? b2) && (b2 <=? 191)) ||
   ((241 <=? b1) && (b1 <=? 243) && continuation b2) ||
   ((b1 =? 244) && (128 <=? b2) && (b2 <=? 143)))%N &&
  continuation b3 && continuation b4.

Fixpoint code_points (l : list ascii) : list N :=
  match l with
  | [] => []
  | c1 :: l1 =>
      let b1 := N_of_ascii c1 in
      if (b1 <? 128)%N then b1 :: code_points l1
      else
        match l1 with
        | c2 :: l2 =>
            let b2 := N_of_ascii c2 in
            if two_bytes b1 b2
            then ((b1 - 192) * 64 + (b2 - 128))%N :: code_points l2
            else
              match l2 with
              | c3 :: l3 =>
                  let b3 := N_of_ascii c3 in
                  if three_bytes b1 b2 b3
                  then ((b1 - 224) * 4096 + (b2 - 128) * 64 + (b3 - 128))%N
                       :: code_points l3
                  else
                    match l3 with
                    | c4 :: l4 =>
                        let b4 := N_of_ascii c4 in
                        if four_bytes b1 b2 b3 b4
                        then ((b1 - 240) * 262144 + (b2 - 128) * 4096 +
                              (b3 - 128) * 64 + (b4 - 128))%N :: code_points l4
                        else b1 :: code_points l1
                    | [] => b1 :: code_points l1
                    end
              | [] => b1 :: code_points l1
              end
        | [] => [b1]
        end
  end.

(** White space for [int]: the ASCII characters that C's [isspace]
    accepts (tab to carriage return, and the space), and the characters
    from 128 up that are white space in Unicode, which [int] replaces by
    a space.  The separators 28 to 31, which [str.strip] removes, are no
    white space for [int]: it leaves ASCII characters as they are. *)
Definition is_space (c : N) : bool :=
  (((9 <=? c) && (c <=? 13)) || (c =? 32) ||
   (c =? 133) || (c =? 160) || (c =? 5760) ||
   ((8192 <=? c) && (c <=? 8202)) || (c =? 8232) || (c =? 8233) ||
   (c =? 8239) || (c =? 8287) || (c =? 12288))%N.

(** The code points of the digit zero of the scripts of Unicode 14
    beyond ASCII; the nine code points after each are its digits 1 to
    9. *)
Definition DIGIT_ZEROS : list N :=
  [1632; 1776; 1984; 2406; 2534; 2662; 2790; 2918; 3046; 3174; 3302; 3430;
   3558; 3664; 3792; 3872; 4160; 4240; 6112; 6160; 6470; 6608; 6784; 6800;
   6992; 7088; 7232; 7248; 42528; 43216; 43264; 43472; 43504; 43600; 44016;
   65296; 66720; 68912; 69734; 69872; 69942; 70096; 70384; 70736; 70864;
   71248; 71360; 71472; 71904; 72016; 72784; 73040; 73120; 92768; 92864;
   93008; 120782; 120792; 120802; 120812; 120822; 123200; 123632; 125264;
   130032]%N.

(** The value of a decimal digit: an ASCII digit, or a character from 128
    up with the property [Decimal], which [int] replaces by the ASCII
    digit of its value. *)
Definition digit_of (c : N) : option Z :=
  if ((48 <=? c) && (c <=? 57))%N then Some (Z.of_N (c - 48))
  else
    match List.find (fun z => ((z <=? c) && (c <=? z + 9))%N) DIGIT_ZEROS with
    | Some z => Some (Z.of_N (c - z))
    | None => None
    end.

Definition is_digit (c : N) : bool :=
  match digit_of c with Some _ => true | None => false end.

(** Digits of an integer literal: groups of decimal digits, single
    underscores allowed between digits only. *)
Fixpoint digits (acc : Z) (after_digit : bool) (l : list N) : option Z :=
  match l with
  | [] => if after_digit then Some acc else None
  | c :: l' =>
      match digit_of c with
      | Some d => digits (10 * acc + d) true l'
      | None =>
          if (c =? 95)%N && after_digit then digits acc false l' else None
      end
  end.

Fixpoint lstrip_space (l : list N) : list N :=
  match l with
  | c :: l' => if is_space c then lstrip_space l' else l
  | [] => []
  end.

Definition strip_space (l : list N) : list N :=
  rev (lstrip_space (rev (lstrip_space l))).

(** The default of [sys.get_int_max_str_digits()]. *)
Definition MAX_STR_DIGITS : nat := 4300.

(** A literal of at most [MAX_STR_DIGITS] digits, leading zeros
    counted, underscores not. *)
Definition literal (l : list N) : option Z :=
  if (MAX_STR_DIGITS <? length (filter is_digit l))%nat then None
  else digits 0 false l.

(** [int(s)] for a string: surrounding white space is dropped, one sign
    ([+], 43, or [-], 45) is allowed, the rest is a decimal literal.
    [None] stands for the [ValueError] that [int] raises on any other
    text, and on a literal of more than 4300 digits. *)
Definition int (s : string) : option Z :=
  match strip_space (code_points (Str.chars s)) with
  | c :: l =>
      if (c =? 45)%N then Z.opp <$> literal l
      else if (c =? 43)%N then literal l
      else literal (c :: l)
  | [] => None
  end.

(** A naive [datetime] is a number of seconds on the time axis of the
    process. *)
Definition datetime := Q.

(** Bounds of [datetime.fromtimestamp] on a platform with a 64-bit
    [time_t] (CPython on Linux, UTC): the range of [time_t], the range in
    which the C library's [localtime] succeeds, and the range of years 1
    to 9999. *)
Definition time_t_min : Z := - 2 ^ 63.
Definition time_t_max : Z := 2 ^ 63 - 1.
Definition localtime_min : Z := -67768040609740800.
Definition localtime_max : Z := 67768036191676799.
Definition datetime_min : Z := -62135510400.
Definition datetime_max : Z := 253402300799.

(** [datetime.fromtimestamp(t)] for an [int]: [OverflowError] outside the
    range of [time_t], [OSError] when [localtime] fails, [ValueError] for a
    year outside 1..9999. *)
Definition fromtimestamp (t : Z) : Result datetime :=
  if (t <? time_t_min) || (time_t_max <? t) then Raise OverflowError
  else if (t <? localtime_min) || (localtime_max <? t) then Raise OSError
  else if (t <? datetime_min) || (datetime_max <? t) then Raise ValueError
  else Ok (inject_Z t).

(** The largest exponent [n] for which the [int] [2 ** n] converts to
    [float]. *)
Definition MAX_EXPONENT : Z := 1023.

(** Python's [min(a, b)]: [b] when [b < a], else [a]. *)
Definition min (a b : Q) : Q := Qmin a b.

(** [x > y] on durations. *)
Definition Qgtb (x y : Q) : bool := negb (Qle_bool x y).

(** [time.sleep] computes the nanoseconds of its argument in binary64,
    where the numbers around [2^63] are 1024 or 2048 apart, and raises
    [OverflowError] when the result is beyond [2^63] in size. *)
Definition sleep_overflows (seconds : Q) : bool :=
  Qgtb (seconds * 1000000000)%Q 9223372036854776832%Q ||
  Qgtb (-9223372036854776832)%Q (seconds * 1000000000)%Q.

(** A result of [2^63] itself passes that check; its conversion to a
    64-bit integer wraps to a negative number (on x86-64), and
    [time.sleep] raises [ValueError] as for a negative duration. *)
Definition sleep_wraps (seconds : Q) : bool :=
  Qgtb (seconds * 1000000000)%Q 9223372036854775296%Q.

(** Truth value of an optional string, as [all([...])] tests it: [None]
    and the empty string are false. *)
Definition truthy (o : option string) : bool :=
  match o with Some s => Str.nonempty s | None => false end.

End Py.

(** ** Data model *)

Record Response := {
  status_code : Z;
  headers : gmap string string
}.

(** An entry of [_rate_limits]: the dict with the keys ['limit'],
    ['remaining'], ['reset'] and ['last_updated']. *)
Record RateInfo := {
  limit : Z;
  remaining : Z;
  reset : Py.datetime;
  last_updated : Py.datetime
}.
Arguments Build_RateInfo limit%_Z remaining%_Z reset%_Q last_updated%_Q.

(** The handler object: the four attributes set from the constructor's
    arguments and the tracking dict. *)
Record RateLimitHandler := {
  max_retries : Z;
  min_backoff : Q;
  max_backoff : Q;
  jitter : bool;
  _rate_limits : gmap string RateInfo
}.
Arguments Build_RateLimitHandler max_retries%_Z min_backoff%_Q max_backoff%_Q jitter _rate_limits.

Definition LIMIT_HEADER : string := "x-mc-rate-limit".
Definition REMAINING_HEADER : string := "x-mc-rate-limit-remaining".
Definition RESET_HEADER : string := "x-mc-rate-limit-reset".

(** The three places that call [time.sleep]: the wait before a request
    (line 172), the backoff after a 429 (line 196) and the backoff after a
    [RequestException] (line 213). *)
Inductive SleepSite := PreCheckWait | ThrottleBackoff | FailureBackoff.

Inductive Event :=
  | EvSleep (site : SleepSite) (seconds : Q)
  | EvRequest (method url : string).

(** What the handler does not own: the clock, the number of calls made to
    the transport and of draws from the random source, and the record of
    what happened, oldest event first. *)
Record World := {
  now : Py.datetime;
  sent : nat;
  draws : nat;
  trace : list Event
}.
Arguments Build_World now%_Q sent%_nat draws%_nat trace%_list.

(** What a call of [session.request] gives: a response, or one of the
    exceptions of [requests], which all derive from [RequestException]. *)
Inductive Reply :=
  | Resp (r : Response)
  | Fail (what : string).

(** The surroundings of a run: the reply of the transport to its [k]-th
    call and the time that call takes, and the [k]-th value of
    [random.random()] as it enters the sum [0.5 + random.random()].  The
    draw itself is below 1, but binary64 rounds the sum for the largest
    draw to 1.5; a value of 1 stands for that draw. *)
Record Env := {
  respond : nat -> Reply;
  latency : nat -> Q;
  random : nat -> Q;
  random_range : forall k, (0 <= random k /\ random k <= 1)%Q
}.

(** ** The monad of methods *)

Definition Sys : Type := RateLimitHandler * World.

Definition M (A : Type) : Type := Sys -> Result A * Sys.

Definition ret {A} (a : A) : M A := fun s => (Ok a, s).

Definition raise {A} (e : exn) : M A := fun s => (Raise e, s).

Definition bind {A B} (m : M A) (k : A -> M B) : M B :=
  fun s =>
    match m s with
    | (Ok a, s') => k a s'
    | (Raise e, s') => (Raise e, s')
    end.

(** [try: m  except <handles> as e: h e]. *)
Definition try_except {A} (m : M A) (handles : exn -> bool) (h : exn -> M A) : M A :=
  fun s =>
    match m s with
    | (Ok a, s') => (Ok a, s')
    | (Raise e, s') => if handles e then h e s' else (Raise e, s')
    end.

Declare Scope py_scope.
Delimit Scope py_scope with py.
Notation "x <- m ;; k" := (bind m (fun x => k))
  (at level 100, m at next level, right associativity) : py_scope.
Notation "m ;;; k" := (bind m (fun _ => k))
  (at level 100, right associativity) : py_scope.
Local Open Scope py_scope.

Definition self : M RateLimitHandler := fun s => (Ok (fst s), s).
Definition world : M World := fun s => (Ok (snd s), s).
Definition set_self (h : RateLimitHandler) : M unit := fun s => (Ok tt, (h, snd s)).
Definition set_world (w : World) : M unit := fun s => (Ok tt, (fst s, w)).

(** [datetime.now()]. *)
Definition datetime_now : M Py.datetime :=
  w <- world ;; ret (now w).

(** [time.sleep(seconds)]: [OverflowError] for a duration beyond the
    range of its nanoseconds, [ValueError] for a negative one (and for
    one that wraps); otherwise the clock moves on and the call is
    recorded. *)
Definition sleep (site : SleepSite) (seconds : Q) : M unit :=
  if Py.sleep_overflows seconds then raise OverflowError
  else if Py.Qgtb 0 seconds || Py.sleep_wraps seconds then raise ValueError
  else
    w <- world ;;
    set_world {| now := (now w + seconds)%Q; sent := sent w; draws := draws w;
                 trace := trace w ++ [EvSleep site seconds] |}.

(** [random.random()]. *)
Definition random_random (env : Env) : M Q :=
  w <- world ;;
  set_world {| now := now w; sent := sent w; draws := S (draws w);
               trace := trace w |} ;;;
  ret (random env (draws w)).

(** [session.request(method, url, **kwargs)]. *)
Definition session_request (env : Env) (method url : string) : M Response :=
  w <- world ;;
  set_world {| now := (now w + latency env (sent w))%Q; sent := S (sent w);
               draws := draws w;
               trace := trace w ++ [EvRequest method url] |} ;;;
  match respond env (sent w) with
  | Resp r => ret r
  | Fail what => raise (RequestException what)
  end.

(** Raising library calls, lifted into the monad. *)
Definition lift {A} (r : Result A) : M A := fun s => (r, s).

(** [int(x)] for a header value: [TypeError] for [None], [ValueError] for
    text that is no integer literal. *)
Definition int_of (x : option string) : M Z :=
  match x with
  | None => raise TypeError
  | Some s =>
      match Py.int s with
      | Some z => ret z
      | None => raise ValueError
      end
  end.

(** ** The methods of [RateLimitHandler] *)

(** [RateLimitHandler(max_retries, min_backoff, max_backoff, jitter)]: the
    constructor stores its arguments and creates an empty tracking dict.
    It has no [raise] statement; its result is given as a [Result] so that
    this can be stated. *)
Definition __init__ (max_retries : Z) (min_backoff max_backoff : Q) (jitter : bool)
  : Result RateLimitHandler :=
  Ok {| max_retries := max_retries; min_backoff := min_backoff;
        max_backoff := max_backoff; jitter := jitter; _rate_limits := ∅ |}.

(** Lines 51-57: [url.split('?')[0].rstrip('/')], then the last two
    fields of [base_url.split('/')] joined by a slash. *)
Definition _get_endpoint_key (url : string) : string :=
  let base_url := Str.rstrip "/" (Str.first "" (Str.split "?" url)) in
  let path := Str.join "/" (Str.last_n 2 (Str.split "/" base_url)) in
  path.

(** [self._rate_limits[endpoint] = info]. *)
Definition set_rate_limit (endpoint : string) (info : RateInfo) : M unit :=
  h <- self ;;
  set_self {| max_retries := max_retries h; min_backoff := min_backoff h;
              max_backoff := max_backoff h; jitter := jitter h;
              _rate_limits := <[endpoint := info]> (_rate_limits h) |}.

(** Lines 59-80.  The dict of line 68 is built before it is assigned, in
    the order of its entries, so a failing conversion leaves
    [_rate_limits] as it was; the [except] clause catches [ValueError]
    and [TypeError] only.  The lock is not modelled: a run is one
    thread. *)
Definition _update_rate_limits (endpoint : string) (response : Response) : M unit :=
  let limit := headers response !! LIMIT_HEADER in
  let remaining := headers response !! REMAINING_HEADER in
  let reset := headers response !! RESET_HEADER in
  if Py.truthy limit && Py.truthy remaining && Py.truthy reset then
    try_except
      (l <- int_of limit ;;
       r <- int_of remaining ;;
       t <- int_of reset ;;
       d <- lift (Py.fromtimestamp t) ;;
       n <- datetime_now ;;
       set_rate_limit endpoint
         {| limit := l; remaining := r; reset := d; last_updated := n |})
      (fun e => match e with ValueError | TypeError => true | _ => false end)
      (fun _ => ret tt)
  else ret tt.

(** The value of [min(self.max_backoff, self.min_backoff * (2 **
    retry_count))] when the product can be formed. *)
Definition exponential (h : RateLimitHandler) (retry_count : Z) : Q :=
  Py.min (max_backoff h) (min_backoff h * 2 ^ retry_count)%Q.

(** Lines 84-87, the backoff before [random] is applied.  [min_backoff]
    is a [float] and [2 ** retry_count] an [int] (a [float] for a
    negative count), so the product converts the power to [float]:
    [OverflowError] from [retry_count = 1024] on. *)
Definition backoff_of (h : RateLimitHandler) (retry_count : Z) : Result Q :=
  if Py.MAX_EXPONENT <? retry_count then Raise OverflowError
  else Ok (exponential h retry_count).

(** Lines 82-93. *)
Definition _calculate_backoff (env : Env) (retry_count : Z) : M Q :=
  h <- self ;;
  backoff <- lift (backoff_of h retry_count) ;;
  if jitter h then
    r <- random_random env ;;
    ret (backoff * ((1 # 2) + r))%Q
  else ret backoff.

(** Lines 95-118.  An entry of the dict has four keys and so is never
    false under [not]. *)
Definition _should_retry (endpoint : string) : M (bool * Q) :=
  h <- self ;;
  match _rate_limits h !! endpoint with
  | None => ret (true, 0%Q)
  | Some rate_info =>
      if remaining rate_info >? 0 then ret (true, 0%Q)
      else
        now <- datetime_now ;;
        if Py.Qgtb (reset rate_info) now then
          let wait_time := (reset rate_info - now)%Q in
          ret (true, (wait_time + 1)%Q)
        else ret (true, 0%Q)
  end.

(** How one pass through the body of the [while] loop ends when it does
    not raise: [continue] (or falling out of the [except] clause) with the
    new [retry_count], or [return response]. *)
Inductive Flow :=
  | Continue (retry_count : Z)
  | Return (response : Response).

(** What both retry paths do after [retry_count += 1]: give up with [e]
    when the count exceeds [max_retries], else back off and go round. *)
Definition retry_or_raise (env : Env) (site : SleepSite) (retry_count : Z) (e : exn)
  : M Flow :=
  h <- self ;;
  if retry_count >? max_retries h then raise e
  else
    backoff <- _calculate_backoff env retry_count ;;
    sleep site backoff ;;;
    ret (Continue retry_count).

(** The check of the rate limits before a request (lines 166-172). *)
Definition precheck (endpoint : string) : M unit :=
  p <- _should_retry endpoint ;;
  let '(should_retry, wait_time) := p in
  if should_retry && Py.Qgtb wait_time 0 then sleep PreCheckWait wait_time
  else ret tt.

(** The body of the [while] loop of [handle_request] (lines 165-213). *)
Definition attempt (env : Env) (method url endpoint : string) (retry_count : Z)
  : M Flow :=
  precheck endpoint ;;;
  try_except
    (response <- session_request env method url ;;
     _update_rate_limits endpoint response ;;;
     if status_code response =? 429 then
       h <- self ;;
       let retry_count := retry_count + 1 in
       retry_or_raise env ThrottleBackoff retry_count
         (RateLimitExceeded InLoop endpoint (max_retries h))
     else ret (Return response))
    is_RequestException
    (fun e =>
       let retry_count := retry_count + 1 in
       retry_or_raise env FailureBackoff retry_count e).

(** The [while retry_count <= self.max_retries] loop and the [raise] after
    it.  [fuel] bounds the number of passes; [None] means that it did not
    suffice. *)
Fixpoint retry_loop (env : Env) (fuel : nat) (method url endpoint : string)
    (retry_count : Z) (s : Sys) : option (Result Response * Sys) :=
  match fuel with
  | O => None
  | S fuel' =>
      if retry_count <=? max_retries (fst s) then
        match attempt env method url endpoint retry_count s with
        | (Ok (Continue retry_count'), s') =>
            retry_loop env fuel' method url endpoint retry_count' s'
        | (Ok (Return response), s') => Some (Ok response, s')
        | (Raise e, s') => Some (Raise e, s')
        end
      else
        Some (Raise (RateLimitExceeded AfterLoop endpoint (max_retries (fst s))), s)
  end.

(** Passes that the loop can need: one per value of [retry_count] from 0
    to [max_retries], and one to find the condition false. *)
Definition enough_fuel (h : RateLimitHandler) : nat :=
  S (Z.to_nat (max_retries h + 1)).

(** Lines 160-217.  The session, given or created by
    [create_retry_session], is the transport of [env]. *)
Definition handle_request (env : Env) (method url : string) (s : Sys)
  : option (Result Response * Sys) :=
  let endpoint := _get_endpoint_key url in
  let retry_count := 0 in
  retry_loop env (enough_fuel (fst s)) method url endpoint retry_count s.

(** ** Observations on a run *)

(** The attributes that the constructor sets; no method assigns them. *)
Definition config_of (h : RateLimitHandler) : Z * Q * Q * bool :=
  (max_retries h, min_backoff h, max_backoff h, jitter h).

(** The durations of the backoff sleeps of a trace, in order. *)
Fixpoint backoff_sleeps (tr : list Event) : list Q :=
  match tr with
  | EvSleep ThrottleBackoff d :: tr' => d :: backoff_sleeps tr'
  | EvSleep FailureBackoff d :: tr' => d :: backoff_sleeps tr'
  | _ :: tr' => backoff_sleeps tr'
  | [] => []
  end.

(** The number of retries that followed a 429. *)
Fixpoint throttle_retries (tr : list Event) : nat :=
  match tr with
  | EvSleep ThrottleBackoff _ :: tr' => S (throttle_retries tr')
  | _ :: tr' => throttle_retries tr'
  | [] => O
  end.

(** The number of retries that followed a [RequestException]. *)
Fixpoint failure_retries (tr : list Event) : nat :=
  match tr with
  | EvSleep FailureBackoff _ :: tr' => S (failure_retries tr')
  | _ :: tr' => failure_retries tr'
  | [] => O
  end.

(** The retries of both kinds together. *)
Definition retries (tr : list Event) : nat :=
  (throttle_retries tr + failure_retries tr)%nat.

(** The longest sleep, in whole seconds, that [time.sleep] accepts. *)
Definition SLEEP_MAX : Q := 9223372036.

(** Every backoff of the handler can be slept: both bounds are
    non-negative, and one and a half times [max_backoff], the most that
    jitter makes of a backoff, is within [SLEEP_MAX]. *)
Definition backoff_fits (h : RateLimitHandler) : Prop :=
  (0 <= min_backoff h)%Q /\ (0 <= max_backoff h)%Q /\
  ((3 # 2) * max_backoff h <= SLEEP_MAX)%Q.


(** The latest reset for which a wait that starts no earlier than [w] can
    be slept: the wait is [reset - now + 1]. *)
Definition horizon (w : World) : Q := (now w + SLEEP_MAX - 1)%Q.

(** The entry of [endpoint], when there is one, has its reset at [T] or
    before. *)
Definition entry_within (T : Q) (h : RateLimitHandler) (endpoint : string) : Prop :=
  forall info : RateInfo,
    _rate_limits h !! endpoint = Some info -> (reset info <= T)%Q.




(** An exception of a library call that no clause of the code catches:
    [ValueError] or [OverflowError] of [time.sleep], [OverflowError] of
    the power of two in [_calculate_backoff], [OverflowError] or [OSError]
    of [datetime.fromtimestamp]. *)
Definition escaped {A} (res : Result A) : Prop :=
  res = Raise ValueError \/ res = Raise OverflowError \/ res = Raise OSError.

(** The branch that the loop body takes on a reply of the transport, as a
    function of the reply and of [retry_count]: the summary against which
    the body is proved. *)
Definition verdict (h : RateLimitHandler) (endpoint : string) (retry_count : Z)
    (x : Reply) : Result Flow :=
  match x with
  | Resp r =>
      if status_code r =? 429 then
        if retry_count + 1 >? max_retries h
        then Raise (RateLimitExceeded InLoop endpoint (max_retries h))
        else Ok (Continue (retry_count + 1))
      else Ok (Return r)
  | Fail what =>
      if retry_count + 1 >? max_retries h
      then Raise (RequestException what)
      else Ok (Continue (retry_count + 1))
  end.

(** 1 when the pass ends by going round the loop again, else 0. *)
Definition continues (res : Result Flow) : nat :=
  match res with
  | Ok (Continue _) => 1
  | _ => 0
  end.

(** The reset header of the response, when it is an integer, is a time
    stamp that [localtime] of the platform converts. *)
Definition reset_convertible (r : Response) : bool :=
  match headers r !! RESET_HEADER ≫= Py.int with
  | Some t => (Py.localtime_min <=? t) && (t <=? Py.localtime_max)
  | None => true
  end.


Definition is_429 (x : Reply) : bool :=
  match x with
  | Resp r => status_code r =? 429
  | Fail _ => false
  end.



(** The ways in which [handle_request] ends by a statement of the loop
    body: [return response] with a response of the transport, the
    [raise RateLimitExceeded] of line 184, or the bare [raise] of line 205
    with an exception of the transport. *)
Definition ends_in_loop (env : Env) (h : RateLimitHandler) (endpoint : string)
    (res : Result Response) : Prop :=
  (exists (k : nat) (r : Response), respond env k = Resp r /\ res = Ok r) \/
  res = Raise (RateLimitExceeded InLoop endpoint (max_retries h)) \/
  (exists (k : nat) (what : string),
     respond env k = Fail what /\ res = Raise (RequestException what)).

(** The world after a sleep, after a call of the transport, and after a
    draw from the random source. *)
Definition slept (site : SleepSite) (d : Q) (w : World) : World :=
  {| now := now w + d; sent := sent w; draws := draws w;
     trace := trace w ++ [EvSleep site d] |}.

Definition requested (env : Env) (method url : string) (w : World) : World :=
  {| now := now w + latency env (sent w); sent := S (sent w); draws := draws w;
     trace := trace w ++ [EvRequest method url] |}.


(** The paths through the body of the loop, as a relation between the
    state before a pass and its outcome: the wait before the request
    raises; the transport raises and the [except] clause takes over; the
    update of the tracker raises; the response is a 429; the response is
    returned. *)
Inductive pass (env : Env) (method url endpoint : string) (retry_count : Z)
    (h : RateLimitHandler) (w : World)
  : Result Flow -> RateLimitHandler -> World -> Prop :=
  | pass_wait_raised (e : exn) :
      precheck endpoint (h, w) = (Raise e, (h, w)) ->
      pass env method url endpoint retry_count h w (Raise e) h w
  | pass_transport_raised (w1 : World) (what : string)
      (res : Result Flow) (w' : World) :
      precheck endpoint (h, w) = (Ok tt, (h, w1)) ->
      respond env (sent w1) = Fail what ->
      retry_or_raise env FailureBackoff (retry_count + 1) (RequestException what)
        (h, requested env method url w1) = (res, (h, w')) ->
      pass env method url endpoint retry_count h w res h w'
  | pass_update_raised (w1 : World) (r : Response) (e : exn) :
      precheck endpoint (h, w) = (Ok tt, (h, w1)) ->
      respond env (sent w1) = Resp r ->
      _update_rate_limits endpoint r (h, requested env method url w1) =
        (Raise e, (h, requested env method url w1)) ->
      pass env method url endpoint retry_count h w
        (Raise e) h (requested env method url w1)
  | pass_throttled (w1 : World) (r : Response) (h1 : RateLimitHandler)
      (res : Result Flow) (w' : World) :
      precheck endpoint (h, w) = (Ok tt, (h, w1)) ->
      respond env (sent w1) = Resp r ->
      _update_rate_limits endpoint r (h, requested env method url w1) =
        (Ok tt, (h1, requested env method url w1)) ->
      status_code r = 429 ->
      retry_or_raise env ThrottleBackoff (retry_count + 1)
        (RateLimitExceeded InLoop endpoint (max_retries h1))
        (h1, requested env method url w1) = (res, (h1, w')) ->
      pass env method url endpoint retry_count h w res h1 w'
  | pass_returned (w1 : World) (r : Response) (h1 : RateLimitHandler) :
      precheck endpoint (h, w) = (Ok tt, (h, w1)) ->
      respond env (sent w1) = Resp r ->
      _update_rate_limits endpoint r (h, requested env method url w1) =
        (Ok tt, (h1, requested env method url w1)) ->
      status_code r <> 429 ->
      pass env method url endpoint retry_count h w
        (Ok (Return r)) h1 (requested env method url w1).

(** What may follow the path of a URL: nothing, or [?] and a query. *)
Definition is_query_suffix (qs : string) : bool :=
  match qs with
  | EmptyString => true
  | String c _ => Ascii.eqb c "?"
  end.

(** A URL whose path ends in the segments [a] and [b]: any earlier part
    [p], any number of trailing slashes [t], and a query or nothing. *)
Definition url_ending_in (p a b t qs : string) : string :=
  p +:+ "/" +:+ a +:+ "/" +:+ b +:+ t +:+ qs.

(** [a] and [b] can be the last two segments of a path: no slash and no
    question mark in them, and [b] is not empty. *)
Definition segments_ok (a b : string) : bool :=
  Str.free_of "/" a && Str.free_of "?" a &&
  Str.free_of "/" b && Str.free_of "?" b && Str.nonempty b.

(** The rest of such a URL is well formed: no question mark before the
    query, only slashes in [t]. *)
Definition affixes_ok (p t qs : string) : bool :=
  Str.free_of "?" p && Str.all_of "/" t && is_query_suffix qs.

(** ** Handlers, responses and transports of the scenarios *)

Definition handler (max_retries : Z) (min_backoff max_backoff : Q) (jitter : bool)
  : RateLimitHandler :=
  {| max_retries := max_retries; min_backoff := min_backoff;
     max_backoff := max_backoff; jitter := jitter; _rate_limits := ∅ |}.
Arguments handler max_retries%_Z min_backoff%_Q max_backoff%_Q jitter.

(** The handler [h] after an entry for [endpoint] has been recorded. *)
Definition tracking (h : RateLimitHandler) (endpoint : string) (info : RateInfo)
  : RateLimitHandler :=
  {| max_retries := max_retries h; min_backoff := min_backoff h;
     max_backoff := max_backoff h; jitter := jitter h;
     _rate_limits := <[endpoint := info]> (_rate_limits h) |}.

(** Entries of the tracking dict: quota left, quota used up until a
    reset at time 1005, quota used up until a reset at time 995. *)
Definition quota_open : RateInfo :=
  {| limit := 100; remaining := 7; reset := 1005; last_updated := 999 |}.
Definition quota_spent : RateInfo :=
  {| limit := 100; remaining := 0; reset := 1005; last_updated := 999 |}.
Definition quota_stale : RateInfo :=
  {| limit := 100; remaining := 0; reset := 995; last_updated := 990 |}.


Definition fresh_world (t : Q) : World :=
  {| now := t; sent := 0; draws := 0; trace := [] |}.

Definition quota_headers (l r t : string) : gmap string string :=
  <[LIMIT_HEADER := l]> (<[REMAINING_HEADER := r]> (<[RESET_HEADER := t]> ∅)).

Definition response (status : Z) (hs : gmap string string) : Response :=
  {| status_code := status; headers := hs |}.

(** Responses without rate-limit headers. *)
Definition plain_429 : Response := response 429 ∅.
Definition plain_200 : Response := response 200 ∅.

Definition test_url : string := "https://api.mimecast.com/api/v2/test".

(** A 200 response whose reset header is an integer beyond the range of
    [time_t]. *)
Definition overflowing_reset : Response :=
  response 200 (quota_headers "100" "99" "100000000000000000000").

(** A transport that plays a script of replies and then repeats [final];
    calls take no time and [random.random()] gives 0. *)
Definition scripted (script : list Reply) (final : Reply) : Env :=
  {| respond := fun k => nth k script final;
     latency := fun _ => 0%Q;
     random := fun _ => 0%Q;
     random_range := fun _ => conj (Qle_refl 0) (Qle_bool_imp_le 0 1 eq_refl) |}.

(** A transport that gives the same reply to every call. *)
Definition always (x : Reply) : Env := scripted [] x.

(** A 429, then a timeout, then success. *)
Definition throttled_then_down : Env :=
  scripted [Resp plain_429; Fail "timeout"] (Resp plain_200).

(** Two 429s, then success. *)
Definition throttled_twice : Env :=
  scripted [Resp plain_429; Resp plain_429] (Resp plain_200).

(** The result and the final world of a run; [None] stands for a run that
    did not end. *)
Definition result_of {A} (run : option (Result A * Sys)) : option (Result A) :=
  fst <$> run.
Definition world_of {A} (run : option (Result A * Sys)) : option World :=
  (fun x => snd (snd x)) <$> run.

(** ** Further observations *)

(** A backoff sleep of [d] seconds is within the bounds of the handler:
    not negative, at most one and a half times [max_backoff], and at most
    [max_backoff] without jitter. *)
Definition backoff_in_bounds (h : RateLimitHandler) (d : Q) : Prop :=
  (0 <= d)%Q /\ (d <= (3 # 2) * max_backoff h)%Q /\
  (jitter h = false -> (d <= max_backoff h)%Q).




(** The entry that an update records from the header values [l], [r] and
    [t] at the time of [w]. *)
Definition snapshot (l r t : Z) (w : World) : RateInfo :=
  {| limit := l; remaining := r; reset := inject_Z t; last_updated := now w |}.

(** The three rate-limit headers of [resp] are integer literals with the
    values [l], [r] and [t]. *)
Definition quota_of (resp : Response) (l r t : Z) : Prop :=
  headers resp !! LIMIT_HEADER ≫= Py.int = Some l /\
  headers resp !! REMAINING_HEADER ≫= Py.int = Some r /\
  headers resp !! RESET_HEADER ≫= Py.int = Some t.

(** The sum of the backoff sleeps of a trace, in seconds. *)
Definition total_backoff (tr : list Event) : Q :=
  fold_right Qplus 0%Q (backoff_sleeps tr).

(** A backoff sleep of the pass that follows [retry_count] failures: within
    the bounds, and without jitter exactly the backoff of the new count. *)
Definition backoff_of_pass (h : RateLimitHandler) (retry_count : Z) (d : Q) : Prop :=
  backoff_in_bounds h d /\ (jitter h = false -> d = exponential h retry_count).


(** ** The client ([client.py]) and its authentication ([auth/auth.py]) *)

Module Strip.

(** [s.lstrip(c)]: drops every leading occurrence of [c]. *)
Fixpoint lstrip_chars (c : ascii) (l : list ascii) : list ascii :=
  match l with
  | x :: l' => if Ascii.eqb x c then lstrip_chars c l' else l
  | [] => []
  end.

Definition lstrip (c : ascii) (s : string) : string :=
  Str.of_chars (lstrip_chars c (Str.chars s)).

End Strip.

Module Time.

(** [timedelta(seconds=n)] for an [int]: [OverflowError] when the number
    of days leaves the range of [timedelta]. *)
Definition timedelta_seconds (n : Z) : Result Q :=
  if (-86399999913600 <=? n) && (n <=? 86399999999999) then Ok (inject_Z n)
  else Raise OverflowError.

(** [t + d] for a [datetime] and a [timedelta]: [OverflowError] when the
    sum leaves the years 1 to 9999. *)
Definition datetime_add (t : Py.datetime) (d : Q) : Result Py.datetime :=
  if Qle_bool (-62135596800) (t + d) && Py.Qgtb 253402300800 (t + d)
  then Ok (t + d)%Q
  else Raise OverflowError.

End Time.

(** The default of [base_url] in both constructors. *)
Definition DEFAULT_BASE_URL : string := "https://api.services.mimecast.com".

(** [x or d] for an optional string: [d] when [x] is [None] or empty. *)
Definition or_default (x : option string) (d : string) : string :=
  match x with
  | Some s => if Str.nonempty s then s else d
  | None => d
  end.

(** What the token endpoint gives to a [requests.post]: an error
    (connection, status or body; all derive from [RequestException]), or
    the JSON object of a token grant.  Its two entries are taken to be
    present, [access_token] a string and [expires_in] an integer; bodies of
    another shape are outside the model. *)
Inductive TokenReply :=
  | TokenError (what : string)
  | Token (access_token : string) (expires_in : Z).

(** The token endpoint: the reply to the [k]-th request and the time that
    request takes. *)
Record AuthEnv := {
  token_reply : nat -> TokenReply;
  token_latency : nat -> Q
}.

(** The world of a client: that of its rate limiter, and the number of
    requests made to the token endpoint. *)
Record ClientWorld := {
  api : World;
  token_requests : nat
}.

Module Auth.

Record MimecastAuth := {
  client_id : string;
  client_secret : string;
  base_url : string;
  _token : option string;
  _token_expiry : option Py.datetime
}.

Definition AuthSys : Type := MimecastAuth * ClientWorld.

(** [MimecastAuth(client_id, client_secret, base_url)], lines 9-27. *)
Definition __init__ (client_id client_secret : string) (base_url : option string)
  : MimecastAuth :=
  {| client_id := client_id; client_secret := client_secret;
     base_url := or_default base_url DEFAULT_BASE_URL;
     _token := None; _token_expiry := None |}.

Definition set_token (a : MimecastAuth) (token : string) : MimecastAuth :=
  {| client_id := client_id a; client_secret := client_secret a;
     base_url := base_url a; _token := Some token;
     _token_expiry := _token_expiry a |}.

Definition set_token_expiry (a : MimecastAuth) (t : Py.datetime) : MimecastAuth :=
  {| client_id := client_id a; client_secret := client_secret a;
     base_url := base_url a; _token := _token a;
     _token_expiry := Some t |}.

(** The world after the [k]-th request to the token endpoint. *)
Definition after_token_request (aenv : AuthEnv) (cw : ClientWorld) : ClientWorld :=
  let w := api cw in
  {| api := {| now := now w + token_latency aenv (token_requests cw);
               sent := sent w; draws := draws w; trace := trace w |};
     token_requests := S (token_requests cw) |}.

(** Lines 29-60.  [self._token] is assigned before the expiry is computed,
    so an [OverflowError] of the latter leaves the new token with the old
    expiry. *)
Definition _get_access_token (aenv : AuthEnv) (s : AuthSys) : Result string * AuthSys :=
  let '(a, cw) := s in
  let cw1 := after_token_request aenv cw in
  match token_reply aenv (token_requests cw) with
  | TokenError what => (Raise (RequestException what), (a, cw1))
  | Token access_token expires_in =>
      let a1 := set_token a access_token in
      match Time.timedelta_seconds (expires_in - 300) with
      | Raise e => (Raise e, (a1, cw1))
      | Ok d =>
          match Time.datetime_add (now (api cw1)) d with
          | Raise e => (Raise e, (a1, cw1))
          | Ok t => (Ok access_token, (set_token_expiry a1 t, cw1))
          end
      end
  end.

(** [not self._token or datetime.now() >= self._token_expiry]: the second
    operand is evaluated for a non-empty token only, and comparing with an
    expiry of [None] is a [TypeError]. *)
Definition token_is_stale (a : MimecastAuth) (cw : ClientWorld) : Result bool :=
  match _token a with
  | None => Ok true
  | Some token =>
      if Str.nonempty token then
        match _token_expiry a with
        | Some expiry => Ok (Qle_bool expiry (now (api cw)))
        | None => Raise TypeError
        end
      else Ok true
  end.

(** [f'Bearer {self._token}']. *)
Definition bearer (a : MimecastAuth) : string :=
  "Bearer " +:+ match _token a with Some token => token | None => "None" end.

Definition auth_headers (a : MimecastAuth) : gmap string string :=
  <["Authorization" := bearer a]>
    (<["Content-Type" := "application/json"]>
       (<["Accept" := "application/json"]> ∅)).

(** Lines 62-77. *)
Definition get_auth_headers (aenv : AuthEnv) (s : AuthSys)
  : Result (gmap string string) * AuthSys :=
  let '(a, cw) := s in
  match token_is_stale a cw with
  | Raise e => (Raise e, s)
  | Ok true =>
      match _get_access_token aenv s with
      | (Ok _, (a', cw')) => (Ok (auth_headers a'), (a', cw'))
      | (Raise e, s') => (Raise e, s')
      end
  | Ok false => (Ok (auth_headers a), s)
  end.

End Auth.

Module Client.

Record MimecastClient := {
  base_url : string;
  auth : Auth.MimecastAuth;
  rate_limiter : RateLimitHandler
}.

Definition ClientSys : Type := MimecastClient * ClientWorld.

(** [MimecastClient(client_id, client_secret, base_url, max_retries,
    min_backoff, max_backoff, jitter)], lines 14-61.  The session that
    [create_retry_session] makes is the transport of the environment. *)
Definition __init__ (client_id client_secret base_url : option string)
    (max_retries : Z) (min_backoff max_backoff : Q) (jitter : bool)
  : Result MimecastClient :=
  let base_url := or_default base_url DEFAULT_BASE_URL in
  match client_id, client_secret with
  | Some id, Some secret =>
      if Str.nonempty id && Str.nonempty secret then
        match __init__ max_retries min_backoff max_backoff jitter with
        | Ok rate_limiter =>
            Ok {| base_url := base_url;
                  auth := Auth.__init__ id secret (Some base_url);
                  rate_limiter := rate_limiter |}
        | Raise e => Raise e
        end
      else Raise ValueError
  | _, _ => Raise ValueError
  end.

(** Line 125: [f"{self.base_url.rstrip('/')}/{endpoint.lstrip('/')}"]. *)
Definition request_url (base_url endpoint : string) : string :=
  Str.rstrip "/" base_url +:+ "/" +:+ Strip.lstrip "/" endpoint.

(** [response.raise_for_status()]: [HTTPError], a [RequestException], for
    a status from 400 to 599. *)
Definition raise_for_status (response : Response) : Result unit :=
  if (400 <=? status_code response) && (status_code response <? 600)
  then Raise (RequestException "HTTPError")
  else Ok tt.

Definition with_auth (c : MimecastClient) (a : Auth.MimecastAuth) : MimecastClient :=
  {| base_url := base_url c; auth := a; rate_limiter := rate_limiter c |}.

Definition with_rate_limiter (c : MimecastClient) (h : RateLimitHandler)
  : MimecastClient :=
  {| base_url := base_url c; auth := auth c; rate_limiter := h |}.

Definition with_api (cw : ClientWorld) (w : World) : ClientWorld :=
  {| api := w; token_requests := token_requests cw |}.

(** Lines 125-151.  The headers go to the transport with the call; the
    replies of the transport of the model do not depend on them.  Both
    [except] clauses log and raise again, so every exception passes;
    [None] stands for a run of [handle_request] that did not end. *)
Definition request (env : Env) (aenv : AuthEnv) (method endpoint : string)
    (s : ClientSys) : option (Result Response * ClientSys) :=
  let '(c, cw) := s in
  let url := request_url (base_url c) endpoint in
  match Auth.get_auth_headers aenv (auth c, cw) with
  | (Raise e, (a, cw1)) => Some (Raise e, (with_auth c a, cw1))
  | (Ok headers, (a, cw1)) =>
      let c1 := with_auth c a in
      match handle_request env method url (rate_limiter c1, api cw1) with
      | None => None
      | Some (Raise e, (h, w)) => Some (Raise e, (with_rate_limiter c1 h, with_api cw1 w))
      | Some (Ok response, (h, w)) =>
          let s' := (with_rate_limiter c1 h, with_api cw1 w) in
          match raise_for_status response with
          | Raise e => Some (Raise e, s')
          | Ok _ => Some (Ok response, s')
          end
      end
  end.

Definition get (env : Env) (aenv : AuthEnv) (endpoint : string) (s : ClientSys)
  : option (Result Response * ClientSys) :=
  request env aenv "GET" endpoint s.


Definition put (env : Env) (aenv : AuthEnv) (endpoint : string) (s : ClientSys)
  : option (Result Response * ClientSys) :=
  request env aenv "PUT" endpoint s.

Definition delete (env : Env) (aenv : AuthEnv) (endpoint : string) (s : ClientSys)
  : option (Result Response * ClientSys) :=
  request env aenv "DELETE" endpoint s.

End Client.

(** A token endpoint that grants the same token to every request, in no
    time. *)
Definition granting (access_token : string) (expires_in : Z) : AuthEnv :=
  {| token_reply := fun _ => Token access_token expires_in;
     token_latency := fun _ => 0%Q |}.

(** A token endpoint that is down. *)
Definition refusing (what : string) : AuthEnv :=
  {| token_reply := fun _ => TokenError what;
     token_latency := fun _ => 0%Q |}.

Definition fresh_client_world (t : Q) : ClientWorld :=
  {| api := fresh_world t; token_requests := 0 |}.

(** A client as its constructor makes it. *)
Definition client (base_url : string) (h : RateLimitHandler) : Client.MimecastClient :=
  {| Client.base_url := base_url;
     Client.auth := Auth.__init__ "id" "secret" (Some base_url);
     Client.rate_limiter := h |}.

(** The clock after the next request to the token endpoint. *)
Definition grant_time (aenv : AuthEnv) (cw : ClientWorld) : Q :=
  (now (api cw) + token_latency aenv (token_requests cw))%Q.

(** A grant of [expires_in] seconds at time [t] has an expiry that
    [timedelta] and [datetime] can hold. *)
Definition grant_in_range (t : Q) (expires_in : Z) : Prop :=
  -86399999913600 <= expires_in - 300 <= 86399999999999 /\
  (-62135596800 <= t + inject_Z (expires_in - 300))%Q /\
  (t + inject_Z (expires_in - 300) < 253402300800)%Q.

(** The object after a grant of the token at time [t]. *)
Definition granted (a : Auth.MimecastAuth) (access_token : string) (t : Q)
    (expires_in : Z) : Auth.MimecastAuth :=
  Auth.set_token_expiry (Auth.set_token a access_token)
    (t + inject_Z (expires_in - 300))%Q.

(** * Properties *)

(** ** Strings *)

Module StrFacts.
Import Str.

Lemma chars_app (s1 s2 : string) :
  chars (s1 +:+ s2) = chars s1 ++ chars s2.
Proof.
  induction s1 as [|c s1 IH]; simpl; [reflexivity|].
  unfold chars in *. simpl. now rewrite IH.
Qed.

Lemma of_chars_app (l1 l2 : list ascii) :
  of_chars (l1 ++ l2) = of_chars l1 +:+ of_chars l2.
Proof.
  induction l1 as [|c l1 IH]; simpl; [reflexivity|].
  unfold of_chars in *. simpl. now rewrite IH.
Qed.

Lemma append_assoc (s1 s2 s3 : string) :
  (s1 +:+ s2) +:+ s3 = s1 +:+ (s2 +:+ s3).
Proof.
  induction s1 as [|c s1 IH]; [reflexivity|].
  change (String c ((s1 +:+ s2) +:+ s3) = String c (s1 +:+ (s2 +:+ s3))).
  now rewrite IH.
Qed.

Lemma of_chars_chars (s : string) : of_chars (chars s) = s.
Proof. apply string_of_list_ascii_of_string. Qed.

Lemma chars_of_chars (l : list ascii) : chars (of_chars l) = l.
Proof. apply list_ascii_of_string_of_list_ascii. Qed.

Lemma split_chars_not_nil sep l : split_chars sep l <> [].
Proof.
  destruct l as [|c l]; simpl; [discriminate|].
  destruct (Ascii.eqb c sep); [discriminate|].
  destruct (split_chars sep l); discriminate.
Qed.

Lemma split_chars_free sep l :
  forallb (fun x => negb (Ascii.eqb x sep)) l = true ->
  split_chars sep l = [l].
Proof.
  induction l as [|c l IH]; simpl; [reflexivity|].
  intros H. apply andb_true_iff in H as [Hc Hl].
  apply negb_true_iff in Hc. rewrite Hc, (IH Hl). reflexivity.
Qed.

Lemma split_chars_app sep l1 l2 :
  split_chars sep (l1 ++ sep :: l2) = split_chars sep l1 ++ split_chars sep l2.
Proof.
  induction l1 as [|c l1 IH]; simpl.
  - now rewrite Ascii.eqb_refl.
  - destruct (Ascii.eqb c sep); rewrite IH; [reflexivity|].
    pose proof (split_chars_not_nil sep l1) as Hne.
    destruct (split_chars sep l1); [contradiction|reflexivity].
Qed.

Lemma rstrip_chars_free c l :
  forallb (fun x => negb (Ascii.eqb x c)) l = true ->
  rstrip_chars c l = l.
Proof.
  induction l as [|x l IH]; simpl; [reflexivity|].
  intros H. apply andb_true_iff in H as [Hx Hl].
  apply negb_true_iff in Hx. rewrite (IH Hl), Hx.
  destruct l; reflexivity.
Qed.

Lemma rstrip_chars_app_free c l1 l2 :
  l2 <> [] ->
  forallb (fun x => negb (Ascii.eqb x c)) l2 = true ->
  rstrip_chars c (l1 ++ l2) = l1 ++ l2.
Proof.
  intros Hne Hfree. induction l1 as [|x l1 IH]; simpl.
  - now apply rstrip_chars_free.
  - rewrite IH. destruct (l1 ++ l2) eqn:E; [|reflexivity].
    apply app_eq_nil in E as [_ E]. contradiction.
Qed.

Lemma rstrip_chars_all c t :
  forallb (fun x => Ascii.eqb x c) t = true -> rstrip_chars c t = [].
Proof.
  induction t as [|x t IH]; simpl; [reflexivity|].
  intros H. apply andb_true_iff in H as [Hx Ht].
  now rewrite (IH Ht), Hx.
Qed.

Lemma rstrip_chars_app_all c l t :
  forallb (fun x => Ascii.eqb x c) t = true ->
  rstrip_chars c (l ++ t) = rstrip_chars c l.
Proof.
  intros Ht. induction l as [|x l IH]; simpl.
  - now apply rstrip_chars_all.
  - now rewrite IH.
Qed.

Lemma last_n_two {A} (l : list A) (a b : A) :
  last_n 2 (l ++ [a; b]) = [a; b].
Proof.
  unfold last_n. rewrite length_app. simpl.
  replace (length l + 2 - 2)%nat with (length l) by lia.
  induction l; simpl; auto.
Qed.

Lemma forallb_all_to_free (c d : ascii) (t : list ascii) :
  c <> d ->
  forallb (fun x => Ascii.eqb x c) t = true ->
  forallb (fun x => negb (Ascii.eqb x d)) t = true.
Proof.
  intros Hcd. induction t as [|x t IH]; simpl; [reflexivity|].
  intros H. apply andb_true_iff in H as [Hx Ht].
  rewrite (IH Ht), andb_true_r. apply negb_true_iff.
  apply Ascii.eqb_eq in Hx. subst x. now apply Ascii.eqb_neq.
Qed.

End StrFacts.

(** ** The endpoint key *)

Section EndpointKey.
Import Str StrFacts.

Lemma free_of_app c (l1 l2 : list ascii) :
  forallb (fun x => negb (Ascii.eqb x c)) (l1 ++ l2) =
  forallb (fun x => negb (Ascii.eqb x c)) l1 &&
  forallb (fun x => negb (Ascii.eqb x c)) l2.
Proof. apply forallb_app. Qed.

Lemma nonempty_chars (b : string) : nonempty b = true -> chars b <> [].
Proof. destruct b; simpl; [discriminate|]. unfold chars. simpl. discriminate. Qed.

(** The part of the URL before the query is what [split('?')[0]] gives. *)
Lemma before_query (pre qs : string) :
  free_of "?" pre = true -> is_query_suffix qs = true ->
  first ""%string (split "?" (pre +:+ qs)) = pre.
Proof.
  intros Hpre Hqs. unfold split, first. rewrite chars_app.
  destruct qs as [|c q]; simpl in Hqs.
  - change (chars "") with (@nil ascii). rewrite app_nil_r.
    rewrite split_chars_free by exact Hpre. simpl. apply of_chars_chars.
  - apply Ascii.eqb_eq in Hqs. subst c.
    change (chars (String "?" q)) with ("?"%char :: chars q).
    rewrite split_chars_app, split_chars_free by exact Hpre.
    simpl. apply of_chars_chars.
Qed.

Lemma endpoint_key_of_url (p a b t qs : string) :
  segments_ok a b = true -> affixes_ok p t qs = true ->
  _get_endpoint_key (url_ending_in p a b t qs) = a +:+ "/" +:+ b.
Proof.
  unfold segments_ok, affixes_ok, free_of, all_of.
  rewrite !andb_true_iff.
  intros [[[[Ha1 Ha2] Hb1] Hb2] Hb3] [[Hp Ht] Hqs].
  unfold _get_endpoint_key, url_ending_in.
  replace (p +:+ "/" +:+ a +:+ "/" +:+ b +:+ t +:+ qs)
    with ((p +:+ "/" +:+ a +:+ "/" +:+ b +:+ t) +:+ qs)
    by (now rewrite !append_assoc).
  rewrite before_query; [|unfold free_of|exact Hqs].
  2:{ rewrite !chars_app. change (chars "/") with ["/"%char].
      rewrite !forallb_app, Hp, Ha2, Hb2. simpl.
      now rewrite (forallb_all_to_free "/" "?" (chars t)). }
  unfold rstrip, split, join.
  replace (chars (p +:+ "/" +:+ a +:+ "/" +:+ b +:+ t))
    with ((chars p ++ "/"%char :: chars a ++ ["/"%char]) ++ chars b ++ chars t).
  2:{ rewrite !chars_app. change (chars "/") with ["/"%char].
      rewrite <- !app_assoc. simpl. rewrite <- !app_assoc. reflexivity. }
  rewrite app_assoc, rstrip_chars_app_all by exact Ht.
  rewrite rstrip_chars_app_free by (auto using nonempty_chars).
  rewrite chars_of_chars, <- !app_assoc. simpl.
  rewrite <- app_assoc. simpl.
  rewrite !split_chars_app, (split_chars_free _ (chars a)) by exact Ha1.
  rewrite (split_chars_free _ (chars b)) by exact Hb1.
  rewrite map_app. simpl. rewrite last_n_two. simpl.
  rewrite !chars_of_chars.
  change ("/"%char :: chars b) with (["/"%char] ++ chars b).
  rewrite !of_chars_app, !of_chars_chars. reflexivity.
Qed.

(** C9. The endpoint key of a URL is what is left of it after the query
    and the trailing slashes are dropped and only the last two segments of
    the path are kept.  Hence two URLs that end in the same two segments
    [a] and [b], whatever comes before them, have the same key, and the
    tracking dict of a handler holds one entry for both. *)
Theorem endpoint_key_last_two_segments
    (a b p1 t1 qs1 p2 t2 qs2 : string) (h : RateLimitHandler) :
  segments_ok a b = true ->
  affixes_ok p1 t1 qs1 = true ->
  affixes_ok p2 t2 qs2 = true ->
  _get_endpoint_key (url_ending_in p1 a b t1 qs1) = a +:+ "/" +:+ b /\
  _get_endpoint_key (url_ending_in p1 a b t1 qs1) =
    _get_endpoint_key (url_ending_in p2 a b t2 qs2) /\
  _rate_limits h !! _get_endpoint_key (url_ending_in p1 a b t1 qs1) =
    _rate_limits h !! _get_endpoint_key (url_ending_in p2 a b t2 qs2).
Proof.
  intros Hab H1 H2.
  rewrite !endpoint_key_of_url by assumption. auto.
Qed.

Lemma endpoint_key_last_two_segments_witness :
  segments_ok "items" "get" = true /\
  affixes_ok "https://api.example.com/v1" "/" "?id=1" = true /\
  affixes_ok "https://api.example.com/v2/ctl" "" "" = true /\
  _get_endpoint_key "https://api.example.com/v1/items/get/?id=1" = "items/get"%string /\
  _get_endpoint_key "https://api.example.com/v1/items/get/?id=1" =
    _get_endpoint_key "https://api.example.com/v2/ctl/items/get".
Proof.
  pose proof (endpoint_key_last_two_segments "items" "get"
                "https://api.example.com/v1" "/" "?id=1"
                "https://api.example.com/v2/ctl" "" ""
                (handler 3 1 60 true) eq_refl eq_refl eq_refl) as [H1 [H2 _]].
  do 3 (split; [reflexivity|]). split; [exact H1 | exact H2].
Defined.

End EndpointKey.

(** ** The backoff *)

Section Backoff.

Lemma Qgtb_true (x y : Q) : Py.Qgtb x y = true <-> (y < x)%Q.
Proof.
  unfold Py.Qgtb. rewrite negb_true_iff. split.
  - intros H. apply Qnot_le_lt. intros Hle.
    apply Qle_bool_iff in Hle. congruence.
  - intros H. destruct (Qle_bool x y) eqn:E; [|reflexivity].
    apply Qle_bool_iff in E. exfalso. exact (Qlt_not_le _ _ H E).
Qed.

Lemma Qgtb_false (x y : Q) : Py.Qgtb x y = false <-> (x <= y)%Q.
Proof.
  unfold Py.Qgtb. rewrite negb_false_iff. apply Qle_bool_iff.
Qed.


Lemma two_power_pos (n : Z) : (0 < 2 ^ n)%Q.
Proof. apply Qpower_0_lt. reflexivity. Qed.



Lemma exponential_nonneg (h : RateLimitHandler) (n : Z) :
  (0 <= min_backoff h)%Q -> (0 <= max_backoff h)%Q -> (0 <= exponential h n)%Q.
Proof.
  intros Hm HM. unfold exponential, Py.min. apply Q.min_glb; [exact HM|].
  apply Qmult_le_0_compat; [exact Hm | apply Qlt_le_weak, two_power_pos].
Qed.

Lemma exponential_cap (h : RateLimitHandler) (n : Z) :
  (exponential h n <= max_backoff h)%Q.
Proof. unfold exponential, Py.min. apply Q.le_min_l. Qed.

(** Up to the exponent 1023 the product of line 86 can be formed. *)
Lemma backoff_of_low (h : RateLimitHandler) (n : Z) :
  n <= Py.MAX_EXPONENT -> backoff_of h n = Ok (exponential h n).
Proof.
  intros Hn. unfold backoff_of.
  destruct (Z.ltb_spec Py.MAX_EXPONENT n) as [Hlt|_]; [lia|reflexivity].
Qed.

(** From the exponent 1024 on the power of two does not convert. *)
Lemma backoff_of_high (h : RateLimitHandler) (n : Z) :
  Py.MAX_EXPONENT < n -> backoff_of h n = Raise OverflowError.
Proof.
  intros Hn. unfold backoff_of.
  destruct (Z.ltb_spec Py.MAX_EXPONENT n) as [_|Hle]; [reflexivity|lia].
Qed.

Lemma calculate_backoff_plain (env : Env) (h : RateLimitHandler) (w : World) (n : Z) :
  jitter h = false -> n <= Py.MAX_EXPONENT ->
  _calculate_backoff env n (h, w) = (Ok (exponential h n), (h, w)).
Proof.
  intros Hj Hn. unfold _calculate_backoff, bind, self, lift. simpl.
  now rewrite (backoff_of_low h n Hn), Hj.
Qed.

Lemma calculate_backoff_overflow (env : Env) (h : RateLimitHandler) (w : World) (n : Z) :
  Py.MAX_EXPONENT < n ->
  _calculate_backoff env n (h, w) = (Raise OverflowError, (h, w)).
Proof.
  intros Hn. unfold _calculate_backoff, bind, self, lift. simpl.
  now rewrite (backoff_of_high h n Hn).
Qed.




End Backoff.

(** ** The quota tracker *)

Section QuotaTracker.

(** C6. The decision before a request, for every handler, clock and
    endpoint key: proceed without waiting when the key has no entry or
    the entry has requests remaining; proceed after waiting
    [reset - now + 1] seconds when none remain and the reset lies in the
    future; proceed without waiting when none remain and the reset has
    passed.  The decision changes nothing. *)
Theorem should_retry_decision (h : RateLimitHandler) (w : World) (endpoint : string) :
  (_rate_limits h !! endpoint = None ->
   _should_retry endpoint (h, w) = (Ok (true, 0%Q), (h, w))) /\
  (forall info : RateInfo,
     _rate_limits h !! endpoint = Some info ->
     (remaining info > 0 ->
      _should_retry endpoint (h, w) = (Ok (true, 0%Q), (h, w))) /\
     (remaining info = 0 -> (now w < reset info)%Q ->
      _should_retry endpoint (h, w) =
        (Ok (true, (reset info - now w + 1)%Q), (h, w))) /\
     (remaining info = 0 -> (reset info <= now w)%Q ->
      _should_retry endpoint (h, w) = (Ok (true, 0%Q), (h, w)))).
Proof.
  unfold _should_retry, bind, self, datetime_now, world, ret. simpl.
  split.
  - intros ->. reflexivity.
  - intros info ->. repeat split.
    + intros Hpos. apply Z.gtb_gt in Hpos. now rewrite Hpos.
    + intros -> Hlt. simpl. apply Qgtb_true in Hlt. now rewrite Hlt.
    + intros -> Hle. simpl. apply Qgtb_false in Hle. now rewrite Hle.
Qed.

Lemma should_retry_decision_witness :
  _should_retry "a/b" (handler 3 1 60 true, fresh_world 1000) =
    (Ok (true, 0%Q), (handler 3 1 60 true, fresh_world 1000)) /\
  _should_retry "a/b"
      (tracking (handler 3 1 60 true) "a/b" quota_open, fresh_world 1000) =
    (Ok (true, 0%Q),
     (tracking (handler 3 1 60 true) "a/b" quota_open, fresh_world 1000)) /\
  _should_retry "a/b"
      (tracking (handler 3 1 60 true) "a/b" quota_spent, fresh_world 1000) =
    (Ok (true, (1005 - 1000 + 1)%Q),
     (tracking (handler 3 1 60 true) "a/b" quota_spent, fresh_world 1000)) /\
  _should_retry "a/b"
      (tracking (handler 3 1 60 true) "a/b" quota_stale, fresh_world 1000) =
    (Ok (true, 0%Q),
     (tracking (handler 3 1 60 true) "a/b" quota_stale, fresh_world 1000)).
Proof.
  set (h := handler 3 1 60 true). set (w := fresh_world 1000).
  assert (Hlk : forall i, _rate_limits (tracking h "a/b" i) !! "a/b"%string = Some i)
    by (intros i; apply lookup_insert_eq).
  destruct (should_retry_decision h w "a/b") as [Hnone _].
  destruct (proj2 (should_retry_decision (tracking h "a/b" quota_open) w "a/b")
              quota_open (Hlk quota_open)) as [Hopen _].
  destruct (proj2 (should_retry_decision (tracking h "a/b" quota_spent) w "a/b")
              quota_spent (Hlk quota_spent)) as [_ [Hspent _]].
  destruct (proj2 (should_retry_decision (tracking h "a/b" quota_stale) w "a/b")
              quota_stale (Hlk quota_stale)) as [_ [_ Hstale]].
  split; [exact (Hnone eq_refl)|].
  split; [exact (Hopen eq_refl)|].
  split; [exact (Hspent eq_refl eq_refl)|].
  apply (Hstale eq_refl). discriminate.
Defined.

End QuotaTracker.

(** ** Updating the tracker from a response *)

Section Update.

Variables (endpoint : string) (r : Response) (h : RateLimitHandler) (w : World).

Let limit_header := headers r !! LIMIT_HEADER.
Let remaining_header := headers r !! REMAINING_HEADER.
Let reset_header := headers r !! RESET_HEADER.

(** A header that is absent or empty leaves everything as it was. *)
Lemma update_without_header :
  Py.truthy limit_header && Py.truthy remaining_header && Py.truthy reset_header = false ->
  _update_rate_limits endpoint r (h, w) = (Ok tt, (h, w)).
Proof.
  intros H. unfold _update_rate_limits.
  fold limit_header remaining_header reset_header. now rewrite H.
Qed.

(** A header that is not an integer literal leaves everything as it
    was: the [ValueError] is caught. *)
Lemma update_with_unparsable_header :
  limit_header ≫= Py.int = None \/
  remaining_header ≫= Py.int = None \/
  reset_header ≫= Py.int = None ->
  _update_rate_limits endpoint r (h, w) = (Ok tt, (h, w)).
Proof.
  intros H. unfold _update_rate_limits.
  fold limit_header remaining_header reset_header.
  destruct (Py.truthy limit_header && Py.truthy remaining_header &&
            Py.truthy reset_header); [|reflexivity].
  unfold try_except, bind, int_of, ret, raise.
  destruct limit_header as [l|]; simpl in *; [|reflexivity].
  destruct (Py.int l); simpl in *; [|reflexivity].
  destruct remaining_header as [m|]; simpl in *; [|reflexivity].
  destruct (Py.int m); simpl in *; [|reflexivity].
  destruct reset_header as [t|]; simpl in *; [|reflexivity].
  destruct (Py.int t); simpl in *; [|reflexivity].
  destruct H as [H|[H|H]]; discriminate.
Qed.

(** What an update can do at all: it leaves the world alone and the
    attributes of the handler as they are; it returns, or an
    [OverflowError] or [OSError] of [datetime.fromtimestamp] escapes and
    the handler is as before; with a convertible reset header it
    returns. *)
Lemma update_run :
  exists (res : Result unit) (h' : RateLimitHandler),
    _update_rate_limits endpoint r (h, w) = (res, (h', w)) /\
    config_of h' = config_of h /\
    (res = Ok tt \/ (res = Raise OverflowError \/ res = Raise OSError) /\ h' = h) /\
    (reset_convertible r = true -> res = Ok tt).
Proof.
  unfold _update_rate_limits, reset_convertible.
  fold limit_header remaining_header reset_header.
  destruct (Py.truthy limit_header && Py.truthy remaining_header &&
            Py.truthy reset_header);
    [|exists (Ok tt), h; auto].
  unfold try_except, bind, int_of, ret, raise.
  destruct limit_header as [l|]; simpl; [|exists (Ok tt), h; auto].
  destruct (Py.int l) as [zl|]; simpl; [|exists (Ok tt), h; auto].
  destruct remaining_header as [m|]; simpl; [|exists (Ok tt), h; auto].
  destruct (Py.int m) as [zm|]; simpl; [|exists (Ok tt), h; auto].
  destruct reset_header as [t|]; simpl; [|exists (Ok tt), h; auto].
  destruct (Py.int t) as [z|]; simpl; [|exists (Ok tt), h; auto].
  unfold lift, Py.fromtimestamp.
  destruct ((z <? Py.time_t_min) || (Py.time_t_max <? z)) eqn:E1.
  { exists (Raise OverflowError), h. repeat split; auto.
    intros Hc. exfalso. unfold Py.time_t_min, Py.time_t_max,
      Py.localtime_min, Py.localtime_max in *. lia. }
  destruct ((z <? Py.localtime_min) || (Py.localtime_max <? z)) eqn:E2.
  { exists (Raise OSError), h. repeat split; auto.
    intros Hc. exfalso. lia. }
  destruct ((z <? Py.datetime_min) || (Py.datetime_max <? z)) eqn:E3.
  { exists (Ok tt), h. auto. }
  eexists (Ok tt), _. split; [reflexivity|]. auto.
Qed.

End Update.

(** C7 (the input on which it fails).  The claim: an update from a response
    whose rate-limit headers are absent or not integers leaves the tracker
    as it was, and an update never raises.  The first part holds
    ([update_without_header], [update_with_unparsable_header]).  The
    second does not: for a reset header that is an integer outside the
    range of [time_t], [datetime.fromtimestamp] raises [OverflowError],
    which the [except (ValueError, TypeError)] clause lets through. *)
Theorem update_escapes_on_reset_out_of_range :
  _update_rate_limits "a/b" overflowing_reset (handler 3 1 60 true, fresh_world 1000) =
    (Raise OverflowError, (handler 3 1 60 true, fresh_world 1000)).
Proof. vm_compute. reflexivity. Qed.

(** ** What an update stores *)

Section Snapshot.

Lemma int_nonempty (s : string) (z : Z) : Py.int s = Some z -> Str.nonempty s = true.
Proof. destruct s; [discriminate|reflexivity]. Qed.

Lemma header_truthy (o : option string) (z : Z) :
  o ≫= Py.int = Some z -> Py.truthy o = true.
Proof. destruct o as [s|]; [apply int_nonempty|discriminate]. Qed.

Lemma int_of_header (o : option string) (z : Z) (s : Sys) :
  o ≫= Py.int = Some z -> int_of o s = (Ok z, s).
Proof.
  destruct o as [x|]; [|discriminate]. simpl. intros H.
  unfold int_of. now rewrite H.
Qed.

Lemma tracking_lookup (h : RateLimitHandler) (endpoint : string) (info : RateInfo) :
  _rate_limits (tracking h endpoint info) !! endpoint = Some info.
Proof. apply lookup_insert_eq. Qed.

Lemma tracking_lookup_other (h : RateLimitHandler) (endpoint other : string)
    (info : RateInfo) :
  other <> endpoint ->
  _rate_limits (tracking h endpoint info) !! other = _rate_limits h !! other.
Proof. intros Hne. now apply lookup_insert_ne. Qed.

Lemma fromtimestamp_in_range (t : Z) :
  Py.datetime_min <= t <= Py.datetime_max ->
  Py.fromtimestamp t = Ok (inject_Z t).
Proof.
  intros Ht. unfold Py.fromtimestamp, Py.time_t_min, Py.time_t_max,
    Py.localtime_min, Py.localtime_max, Py.datetime_min, Py.datetime_max in *.
  repeat match goal with
         | |- context [?a <? ?b] => destruct (Z.ltb_spec a b); try lia
         end.
  reflexivity.
Qed.

(** Three integer headers with a reset inside the range of [datetime]
    are stored as the snapshot of the endpoint. *)
Lemma update_run_snapshot
    (endpoint : string) (resp : Response) (h : RateLimitHandler) (w : World)
    (l r t : Z) :
  quota_of resp l r t ->
  Py.datetime_min <= t <= Py.datetime_max ->
  _update_rate_limits endpoint resp (h, w) =
    (Ok tt, (tracking h endpoint (snapshot l r t w), w)).
Proof.
  intros (Hl & Hr & Ht) Hrange.
  unfold _update_rate_limits.
  rewrite (header_truthy _ _ Hl), (header_truthy _ _ Hr), (header_truthy _ _ Ht).
  simpl. unfold try_except, bind.
  rewrite (int_of_header _ _ _ Hl), (int_of_header _ _ _ Hr), (int_of_header _ _ _ Ht).
  unfold lift. rewrite (fromtimestamp_in_range t Hrange). reflexivity.
Qed.

(** Whatever the response, the update leaves the world, the configuration
    and the entries of the other endpoints alone; the handler is either
    unchanged or holds the snapshot of the three headers. *)
Lemma update_outcome
    (endpoint : string) (resp : Response) (h : RateLimitHandler) (w : World) :
  exists (res : Result unit) (h' : RateLimitHandler),
    _update_rate_limits endpoint resp (h, w) = (res, (h', w)) /\
    config_of h' = config_of h /\
    (forall other : string, other <> endpoint ->
       _rate_limits h' !! other = _rate_limits h !! other) /\
    (h' = h \/
     exists l r t : Z,
       quota_of resp l r t /\ res = Ok tt /\
       h' = tracking h endpoint (snapshot l r t w)).
Proof.
  unfold _update_rate_limits, quota_of.
  destruct (Py.truthy (headers resp !! LIMIT_HEADER) &&
            Py.truthy (headers resp !! REMAINING_HEADER) &&
            Py.truthy (headers resp !! RESET_HEADER));
    [|exists (Ok tt), h; auto].
  unfold try_except, bind, int_of, ret, raise.
  destruct (headers resp !! LIMIT_HEADER) as [sl|]; simpl; [|exists (Ok tt), h; auto].
  destruct (Py.int sl) as [l|]; simpl; [|exists (Ok tt), h; auto].
  destruct (headers resp !! REMAINING_HEADER) as [sr|]; simpl;
    [|exists (Ok tt), h; auto].
  destruct (Py.int sr) as [r|]; simpl; [|exists (Ok tt), h; auto].
  destruct (headers resp !! RESET_HEADER) as [st|]; simpl; [|exists (Ok tt), h; auto].
  destruct (Py.int st) as [t|]; simpl; [|exists (Ok tt), h; auto].
  unfold lift. destruct (Py.fromtimestamp t) as [d|e] eqn:E.
  - assert (Hd : d = inject_Z t).
    { unfold Py.fromtimestamp in E.
      repeat match type of E with
             | (if ?c then _ else _) = _ => destruct c; try discriminate
             end.
      now injection E as <-. }
    subst d. exists (Ok tt), (tracking h endpoint (snapshot l r t w)).
    split; [reflexivity|]. split; [reflexivity|].
    split; [intros; now apply tracking_lookup_other|].
    right. exists l, r, t. auto.
  - simpl. destruct e; simpl; eexists _, h; (split; [reflexivity|]); auto.
Qed.

(** The two ways in which an update ends. *)
Lemma update_cases
    (endpoint : string) (resp : Response) (h : RateLimitHandler) (w : World) :
  exists (res : Result unit) (h' : RateLimitHandler),
    _update_rate_limits endpoint resp (h, w) = (res, (h', w)) /\
    config_of h' = config_of h /\
    (forall other : string, other <> endpoint ->
       _rate_limits h' !! other = _rate_limits h !! other) /\
    ((res = Ok tt /\
      (h' = h \/
       exists l r t : Z,
         quota_of resp l r t /\ h' = tracking h endpoint (snapshot l r t w))) \/
     ((res = Raise OverflowError \/ res = Raise OSError) /\ h' = h /\
      reset_convertible resp = false)).
Proof.
  destruct (update_outcome endpoint resp h w) as (res & h' & Hup & Hcfg & Hother & Hh).
  destruct (update_run endpoint resp h w) as (res0 & h0 & Hup0 & _ & Hres & Hconv).
  rewrite Hup in Hup0. inversion Hup0; subst res0 h0; clear Hup0.
  exists res, h'. split; [exact Hup|]. split; [exact Hcfg|]. split; [exact Hother|].
  destruct Hres as [->|[Hesc ->]].
  - left. split; [reflexivity|].
    destruct Hh as [->|(l & r & t & Hq & _ & ->)]; eauto 6.
  - right. split; [exact Hesc|]. split; [reflexivity|].
    destruct (reset_convertible resp); [|reflexivity].
    specialize (Hconv eq_refl). destruct Hesc; congruence.
Qed.

End Snapshot.

(** ** One pass through the loop *)

Section Traces.

Lemma throttle_retries_app (t1 t2 : list Event) :
  throttle_retries (t1 ++ t2) = (throttle_retries t1 + throttle_retries t2)%nat.
Proof.
  induction t1 as [|e t1 IH]; simpl; [reflexivity|].
  destruct e as [[| |] d|m u]; simpl; lia.
Qed.

Lemma failure_retries_app (t1 t2 : list Event) :
  failure_retries (t1 ++ t2) = (failure_retries t1 + failure_retries t2)%nat.
Proof.
  induction t1 as [|e t1 IH]; simpl; [reflexivity|].
  destruct e as [[| |] d|m u]; simpl; lia.
Qed.

Lemma retries_app (t1 t2 : list Event) :
  retries (t1 ++ t2) = (retries t1 + retries t2)%nat.
Proof. unfold retries. rewrite throttle_retries_app, failure_retries_app. lia. Qed.

Lemma backoff_sleeps_app (t1 t2 : list Event) :
  backoff_sleeps (t1 ++ t2) = backoff_sleeps t1 ++ backoff_sleeps t2.
Proof.
  induction t1 as [|e t1 IH]; simpl; [reflexivity|].
  destruct e as [[| |] d|m u]; simpl; now rewrite ?IH.
Qed.

Lemma backoff_sleeps_length (tr : list Event) :
  length (backoff_sleeps tr) = retries tr.
Proof.
  unfold retries. induction tr as [|e tr IH]; simpl; [reflexivity|].
  destruct e as [[| |] d|m u]; simpl; lia.
Qed.

End Traces.

Section Pass.

Variable env : Env.




(** The ways in which a sleep ends: it is made, for a duration that is
    not negative, or it raises and nothing has changed, for a duration
    that is negative or beyond [SLEEP_MAX]. *)
Lemma sleep_cases (site : SleepSite) (d : Q) (h : RateLimitHandler) (w : World) :
  (sleep site d (h, w) = (Ok tt, (h, slept site d w)) /\ (0 <= d)%Q) \/
  ((sleep site d (h, w) = (Raise ValueError, (h, w)) \/
    sleep site d (h, w) = (Raise OverflowError, (h, w))) /\
   (d < 0 \/ SLEEP_MAX < d)%Q).
Proof.
  unfold sleep. destruct (Py.sleep_overflows d) eqn:E.
  - right. split; [right; reflexivity|].
    unfold Py.sleep_overflows in E. unfold SLEEP_MAX.
    apply orb_true_iff in E as [E|E]; apply Qgtb_true in E; [right|left]; lra.
  - destruct (Py.Qgtb 0 d || Py.sleep_wraps d) eqn:E0.
    + right. split; [left; reflexivity|].
      unfold Py.sleep_wraps in E0. unfold SLEEP_MAX.
      apply orb_true_iff in E0 as [E0|E0]; apply Qgtb_true in E0; [left|right]; lra.
    + left. split; [reflexivity|].
      apply orb_false_iff in E0 as [E0 _]. now apply Qgtb_false.
Qed.

(** The check before a request: no wait, or a wait until one second after
    the reset of an exhausted entry, which [time.sleep] may refuse. *)
Lemma precheck_cases (endpoint : string) (h : RateLimitHandler) (w : World) :
  precheck endpoint (h, w) = (Ok tt, (h, w)) \/
  exists info : RateInfo,
    _rate_limits h !! endpoint = Some info /\
    remaining info <= 0 /\ (now w < reset info)%Q /\
    (precheck endpoint (h, w) =
       (Ok tt, (h, slept PreCheckWait (reset info - now w + 1) w)) \/
     ((precheck endpoint (h, w) = (Raise ValueError, (h, w)) \/
       precheck endpoint (h, w) = (Raise OverflowError, (h, w))) /\
      (SLEEP_MAX < reset info - now w + 1)%Q)).
Proof.
  unfold precheck, bind.
  assert (Hnone : forall b : bool,
            (if b && Py.Qgtb 0 0 then sleep PreCheckWait 0%Q else ret tt) (h, w) =
            (Ok tt, (h, w))).
  { intros b. now rewrite andb_false_r. }
  unfold _should_retry, bind, self, datetime_now, world, ret. simpl.
  destruct (_rate_limits h !! endpoint) as [info|]; [|left; apply (Hnone true)].
  destruct (Z.gtb_spec (remaining info) 0) as [|Hrem]; [left; apply (Hnone true)|].
  simpl. destruct (Py.Qgtb (reset info) (now w)) eqn:E; [|left; apply (Hnone true)].
  apply Qgtb_true in E. right. exists info.
  split; [reflexivity|]. split; [exact Hrem|]. split; [exact E|].
  assert (Hpos : (0 < reset info - now w + 1)%Q) by lra.
  simpl. apply Qgtb_true in Hpos as Hgt. rewrite Hgt.
  destruct (sleep_cases PreCheckWait (reset info - now w + 1) h w)
    as [[Hs _]|[Hs [Hneg|Hfar]]].
  - left. exact Hs.
  - lra.
  - right. split; [exact Hs|exact Hfar].
Qed.

(** What the check leaves alone; it raises nothing but the error of a
    wait that is too long, and not that when the entry of the endpoint
    lies within the horizon. *)
Lemma precheck_run (endpoint : string) (h : RateLimitHandler) (w : World) :
  exists (res : Result unit) (w' : World) (tr : list Event),
    precheck endpoint (h, w) = (res, (h, w')) /\
    sent w' = sent w /\ draws w' = draws w /\
    trace w' = trace w ++ tr /\ retries tr = 0%nat /\
    (now w <= now w')%Q /\
    (res = Ok tt \/ (escaped res /\ w' = w)) /\
    (forall T : Q, entry_within T h endpoint -> (T <= horizon w)%Q -> res = Ok tt).
Proof.
  destruct (precheck_cases endpoint h w)
    as [Hrun|(info & Hlk & Hrem & Hlt & [Hrun|[Hrun Hfar]])].
  - exists (Ok tt), w, []. rewrite app_nil_r.
    repeat split; auto. apply Qle_refl.
  - exists (Ok tt), (slept PreCheckWait (reset info - now w + 1) w),
      [EvSleep PreCheckWait (reset info - now w + 1)].
    repeat split; auto. simpl. lra.
  - assert (Hno : forall T : Q, entry_within T h endpoint -> (T <= horizon w)%Q -> False).
    { intros T Hin HT. specialize (Hin info Hlk). unfold horizon in HT. lra. }
    destruct Hrun as [Hrun|Hrun];
      [exists (Raise ValueError), w, []|exists (Raise OverflowError), w, []];
      rewrite app_nil_r;
      (split; [exact Hrun|]); (split; [reflexivity|]); (split; [reflexivity|]);
      (split; [reflexivity|]); (split; [reflexivity|]); (split; [apply Qle_refl|]);
      (split; [right; split; [|reflexivity]|intros T Hin HT; destruct (Hno T Hin HT)]).
    + left. reflexivity.
    + right. left. reflexivity.
Qed.

(** The two ways in which the backoff is computed: the power of two does
    not convert, or a value comes back (after one draw with jitter)
    which, when it is not negative, is a backoff of the pass. *)
Lemma calculate_backoff_cases (rc : Z) (h : RateLimitHandler) (w : World) :
  (Py.MAX_EXPONENT < rc /\
   _calculate_backoff env rc (h, w) = (Raise OverflowError, (h, w))) \/
  (rc <= Py.MAX_EXPONENT /\
   exists (b : Q) (w' : World),
     _calculate_backoff env rc (h, w) = (Ok b, (h, w')) /\
     sent w' = sent w /\ trace w' = trace w /\ now w' = now w /\
     ((0 <= b)%Q -> backoff_of_pass h rc b) /\
     ((0 <= min_backoff h)%Q -> (0 <= max_backoff h)%Q -> (0 <= b)%Q)).
Proof.
  destruct (Z.lt_ge_cases Py.MAX_EXPONENT rc) as [Hhigh|Hlow].
  { left. split; [exact Hhigh|]. now apply calculate_backoff_overflow. }
  right. split; [exact Hlow|].
  pose proof (exponential_cap h rc) as Hcap.
  unfold _calculate_backoff, bind, self, lift. simpl.
  rewrite (backoff_of_low h rc Hlow).
  destruct (jitter h) eqn:Hj.
  - unfold random_random, bind, world, set_world, ret. simpl.
    eexists _, _. split; [reflexivity|]. simpl.
    split; [reflexivity|]. split; [reflexivity|]. split; [reflexivity|].
    destruct (random_range env (draws w)) as [H0 H1].
    set (r := random env (draws w)) in *. set (b := exponential h rc) in *.
    split.
    + intros Hd. assert (Hb : (0 <= b)%Q) by nra.
      unfold backoff_of_pass, backoff_in_bounds. rewrite Hj.
      repeat split; try nra; discriminate.
    + intros Hm HM. pose proof (exponential_nonneg h rc Hm HM) as Hb.
      fold b in Hb. nra.
  - exists (exponential h rc), w. unfold ret. split; [reflexivity|].
    split; [reflexivity|]. split; [reflexivity|]. split; [reflexivity|]. split.
    + intros Hd. unfold backoff_of_pass, backoff_in_bounds.
      repeat split; try nra; auto.
    + apply exponential_nonneg.
Qed.

(** The two retry paths: give up with [e], or sleep and go round, unless
    the backoff or its sleep raises, which does not happen when the
    backoffs of the handler fit and the count is at most 1023. *)
Lemma retry_or_raise_run (site : SleepSite) (rc : Z) (e : exn)
    (h : RateLimitHandler) (w : World) :
  exists (res : Result Flow) (w' : World) (tr : list Event),
    retry_or_raise env site rc e (h, w) = (res, (h, w')) /\
    sent w' = sent w /\ trace w' = trace w ++ tr /\
    (now w <= now w')%Q /\
    (((rc >? max_retries h) = true /\ res = Raise e /\ tr = [] /\ w' = w) \/
     ((rc >? max_retries h) = false /\ res = Ok (Continue rc) /\
      exists d : Q, tr = [EvSleep site d] /\ backoff_of_pass h rc d) \/
     ((rc >? max_retries h) = false /\
      (res = Raise ValueError \/ res = Raise OverflowError) /\ tr = [] /\
      ~ (backoff_fits h /\ rc <= Py.MAX_EXPONENT))).
Proof.
  unfold retry_or_raise, bind, self. simpl.
  destruct (rc >? max_retries h) eqn:E.
  { exists (Raise e), w, []. rewrite app_nil_r. repeat split; auto.
    apply Qle_refl. }
  destruct (calculate_backoff_cases rc h w)
    as [[Hhigh Hb]|(Hlow & b & w1 & Hb & Hs & Ht & Hn & Hpass & Hnn)]; rewrite Hb.
  { exists (Raise OverflowError), w, []. rewrite app_nil_r.
    repeat split; auto; [apply Qle_refl|].
    right. right. repeat split; auto. intros [_ Hle]. lia. }
  destruct (sleep_cases site b h w1) as [[Hsl Hpos]|[Hsl Hout]].
  - rewrite Hsl.
    exists (Ok (Continue rc)), (slept site b w1), [EvSleep site b].
    simpl. rewrite Ht, Hn. repeat split; auto; [lra|].
    right. left. repeat split. exists b. auto.
  - assert (Hno : ~ (backoff_fits h /\ rc <= Py.MAX_EXPONENT)).
    { intros [(Hm & HM & Hfit) _]. specialize (Hnn Hm HM).
      destruct (Hpass Hnn) as [(_ & Hup & _) _].
      destruct Hout as [Hneg|Hfar]; unfold SLEEP_MAX in *; lra. }
    destruct Hsl as [Hsl|Hsl]; rewrite Hsl;
      [exists (Raise ValueError), w1, []|exists (Raise OverflowError), w1, []];
      rewrite app_nil_r, Hn; repeat split; auto; try apply Qle_refl;
      right; right; repeat split; auto.
Qed.

Lemma retry_or_raise_no_return (site : SleepSite) (rc : Z) (e : exn)
    (s s' : Sys) (r : Response) :
  retry_or_raise env site rc e s <> (Ok (Return r), s').
Proof.
  destruct s as [h w].
  destruct (retry_or_raise_run site rc e h w)
    as (res & w' & tr & Hrun & _ & _ & _ &
        [(_ & -> & _)|[(_ & -> & _)|(_ & [-> | ->] & _)]]);
    rewrite Hrun; discriminate.
Qed.

(** A retry path that was entered with an exception other than a
    [RequestException] raises none. *)
Lemma retry_or_raise_not_caught (site : SleepSite) (rc : Z) (e e' : exn)
    (s s' : Sys) :
  is_RequestException e = false ->
  retry_or_raise env site rc e s = (Raise e', s') ->
  is_RequestException e' = false.
Proof.
  destruct s as [h w]. intros He.
  destruct (retry_or_raise_run site rc e h w)
    as (res & w' & tr & Hrun & _ & _ & _ &
        [(_ & -> & _)|[(_ & -> & _)|(_ & [-> | ->] & _)]]);
    rewrite Hrun; intros H; inversion H; subst; auto.
Qed.

Lemma requested_facts (method url : string) (w : World) :
  sent (requested env method url w) = S (sent w) /\
  trace (requested env method url w) = trace w ++ [EvRequest method url] /\
  now (requested env method url w) = (now w + latency env (sent w))%Q.
Proof. repeat split. Qed.

(** Every run of the loop body is one of the paths of [pass]. *)
Lemma attempt_pass (method url endpoint : string) (rc : Z)
    (h : RateLimitHandler) (w : World)
    (res : Result Flow) (h' : RateLimitHandler) (w' : World) :
  attempt env method url endpoint rc (h, w) = (res, (h', w')) ->
  pass env method url endpoint rc h w res h' w'.
Proof.
  unfold attempt, bind.
  destruct (precheck_run endpoint h w)
    as (rp & w1 & pre & Hpre & _ & _ & _ & _ & _ & Hrp & _).
  rewrite Hpre. destruct Hrp as [->|[Hesc ->]].
  2:{ destruct rp as [[]|e]; [destruct Hesc as [H|[H|H]]; discriminate|].
      intros H; inversion H; subst. now apply pass_wait_raised. }
  unfold try_except, bind, session_request, bind, world, set_world. simpl.
  fold (requested env method url w1).
  destruct (respond env (sent w1)) as [r|what] eqn:Hreply; simpl.
  - destruct (update_cases endpoint r h (requested env method url w1))
      as (ru & h1 & Hup & _ & _ & [[-> _]|[Hesc [-> _]]]); rewrite Hup.
    + unfold self. cbn [fst]. destruct (status_code r =? 429) eqn:E429.
      * apply Z.eqb_eq in E429.
        change (fst (h1, requested env method url w1)) with h1.
        destruct (retry_or_raise env ThrottleBackoff (rc + 1)
                    (RateLimitExceeded InLoop endpoint (max_retries h1))
                    (h1, requested env method url w1)) as [res0 [h0 w0]] eqn:E0.
        assert (Hh0 : h0 = h1).
        { destruct (retry_or_raise_run ThrottleBackoff (rc + 1)
                      (RateLimitExceeded InLoop endpoint (max_retries h1))
                      h1 (requested env method url w1))
            as (res2 & w2 & tr2 & Hrun2 & _).
          rewrite E0 in Hrun2. now inversion Hrun2. }
        subst h0.
        assert (Hpass : pass env method url endpoint rc h w res0 h1 w0)
          by (eapply pass_throttled; eauto).
        destruct res0 as [a|e'].
        { intros H; inversion H; subst. exact Hpass. }
        rewrite (retry_or_raise_not_caught ThrottleBackoff (rc + 1)
                   (RateLimitExceeded InLoop endpoint (max_retries h1)) e' _ _
                   eq_refl E0).
        intros H; inversion H; subst. exact Hpass.
      * apply Z.eqb_neq in E429.
        intros H; inversion H; subst. eapply pass_returned; eauto.
    + assert (Hnot : forall e0, ru = Raise e0 -> is_RequestException e0 = false)
        by (intros e0 ->; destruct Hesc as [H|H]; inversion H; reflexivity).
      destruct ru as [[]|e0]; [destruct Hesc; discriminate|].
      rewrite (Hnot e0 eq_refl).
      intros H; inversion H; subst. eapply pass_update_raised; eauto.
  - destruct (retry_or_raise env FailureBackoff (rc + 1) (RequestException what)
                (h, requested env method url w1)) as [res0 [h0 w0]] eqn:E0.
    assert (Hh0 : h0 = h).
    { destruct (retry_or_raise_run FailureBackoff (rc + 1) (RequestException what)
                  h (requested env method url w1))
        as (res2 & w2 & tr2 & Hrun2 & _).
      rewrite E0 in Hrun2. now inversion Hrun2. }
    subst h0. intros H; inversion H; subst. eapply pass_transport_raised; eauto.
Qed.

End Pass.
Section PassFacts.

Variable env : Env.

Lemma no_retries_no_sleeps (tr : list Event) :
  retries tr = 0%nat -> backoff_sleeps tr = [].
Proof. intros H. apply length_zero_iff_nil. now rewrite backoff_sleeps_length. Qed.

Lemma exponential_config (h h' : RateLimitHandler) (n : Z) :
  config_of h' = config_of h -> exponential h' n = exponential h n.
Proof.
  unfold config_of, exponential. intros Hcfg.
  injection Hcfg as _ Hmin Hmax _. now rewrite Hmin, Hmax.
Qed.

Lemma backoff_in_bounds_config (h h' : RateLimitHandler) (d : Q) :
  config_of h' = config_of h -> backoff_in_bounds h' d -> backoff_in_bounds h d.
Proof.
  intros Hcfg. unfold backoff_in_bounds.
  unfold config_of in Hcfg. injection Hcfg as _ _ Hmax Hj. now rewrite Hmax, Hj.
Qed.

Lemma backoff_of_pass_config (h h' : RateLimitHandler) (n : Z) (d : Q) :
  config_of h' = config_of h -> backoff_of_pass h' n d -> backoff_of_pass h n d.
Proof.
  intros Hcfg [Hb Hd]. split; [now apply (backoff_in_bounds_config h h')|].
  rewrite <- (exponential_config h h' n Hcfg).
  unfold config_of in Hcfg. injection Hcfg as _ _ _ Hj. now rewrite <- Hj.
Qed.


(** A retry path of the loop, read off [retry_or_raise_run]: it goes
    round exactly when it has slept, its sleep is a backoff of the pass,
    and it ends as the count says unless the backoff or the sleep
    raises. *)
Lemma retry_path (site : SleepSite) (rc : Z) (e : exn)
    (h : RateLimitHandler) (w : World) (res : Result Flow)
    (h' : RateLimitHandler) (w' : World) :
  site <> PreCheckWait ->
  retry_or_raise env site rc e (h, w) = (res, (h', w')) ->
  h' = h /\
  exists tr : list Event,
    sent w' = sent w /\ trace w' = trace w ++ tr /\
    (now w <= now w')%Q /\
    retries tr = continues res /\
    Forall (backoff_of_pass h rc) (backoff_sleeps tr) /\
    (res = (if rc >? max_retries h then Raise e else Ok (Continue rc)) \/
     (escaped res /\ ~ (backoff_fits h /\ rc <= Py.MAX_EXPONENT))).
Proof.
  intros Hsite Hrun.
  destruct (retry_or_raise_run env site rc e h w)
    as (res0 & w0 & tr & Hrun0 & Hs & Ht & Hn & Hcases).
  rewrite Hrun in Hrun0. inversion Hrun0; subst res0 h' w0; clear Hrun0.
  split; [reflexivity|]. exists tr.
  split; [exact Hs|]. split; [exact Ht|]. split; [exact Hn|].
  destruct Hcases as [(E & -> & -> & _)|[(E & -> & d & -> & Hd)|(E & Hres & -> & Hno)]].
  - rewrite E. repeat split; auto.
  - rewrite E. split; [destruct site; [contradiction|reflexivity|reflexivity]|].
    split; [|auto]. destruct site; [contradiction| |]; simpl; auto.
  - assert (Hesc : escaped res)
      by (destruct Hres as [->| ->]; [left|right; left]; reflexivity).
    destruct Hres as [->| ->]; (split; [reflexivity|]);
      (split; [constructor|]); right; auto.
Qed.

(** One pass through the body of the loop: at most one call of the
    transport; the attributes of the handler and the entries of the other
    endpoints stay; it goes round again exactly when a backoff sleep was
    made, and that sleep is a backoff of the pass; and after one call its
    outcome is the [verdict] on the reply, unless an exception of a library
    call escapes. *)
Lemma attempt_run (method url endpoint : string) (rc : Z)
    (h : RateLimitHandler) (w : World) :
  exists (res : Result Flow) (h' : RateLimitHandler) (w' : World) (tr : list Event),
    attempt env method url endpoint rc (h, w) = (res, (h', w')) /\
    config_of h' = config_of h /\
    (sent w <= sent w' <= S (sent w))%nat /\
    trace w' = trace w ++ tr /\
    retries tr = continues res /\
    (forall other : string, other <> endpoint ->
       _rate_limits h' !! other = _rate_limits h !! other) /\
    Forall (backoff_of_pass h (rc + 1)) (backoff_sleeps tr) /\
    ((res = verdict h endpoint rc (respond env (sent w)) /\ sent w' = S (sent w)) \/
     escaped res).
Proof.
  destruct (attempt env method url endpoint rc (h, w)) as [res [h' w']] eqn:Ea.
  exists res, h', w'. apply attempt_pass in Ea.
  destruct (precheck_run endpoint h w)
    as (rp & wp & pre & Hpre & Hsp & _ & Htp & Hrp & _ & _ & _).
  assert (Hpre_sl : backoff_sleeps pre = []) by now apply no_retries_no_sleeps.
  destruct Ea as [e Hp|w1 what res w' Hp Hreply Hretry|w1 r e Hp Hreply Hup
                 |w1 r h1 res w' Hp Hreply Hup H429 Hretry|w1 r h1 Hp Hreply Hup H429];
    rewrite Hp in Hpre; inversion Hpre; subst rp wp; clear Hpre.
  - exists pre. rewrite Hrp. repeat split; auto; try lia.
    + rewrite Hpre_sl. constructor.
    + right. destruct (precheck_run endpoint h w)
        as (rp & wp & pre' & Hpre' & _ & _ & _ & _ & _ & [->|[Hesc _]] & _);
        rewrite Hp in Hpre'; inversion Hpre'; subst.
      destruct Hesc as [H|[H|H]]; inversion H; subst;
        [left|right; left|right; right]; reflexivity.
  - apply retry_path in Hretry as (_ & tr & Hs & Ht & _ & Hr & HF & Hres);
      [|discriminate].
    exists (pre ++ [EvRequest method url] ++ tr).
    simpl in Hs, Ht. rewrite Hsp in *.
    split; [reflexivity|]. split; [reflexivity|]. split; [lia|].
    split; [rewrite Ht, Htp, <- !app_assoc; reflexivity|].
    split; [rewrite !retries_app, Hrp, Hr; reflexivity|].
    split; [reflexivity|].
    split; [rewrite !backoff_sleeps_app, Hpre_sl; exact HF|].
    rewrite Hreply. destruct Hres as [->|[Hesc _]]; [left|right; exact Hesc].
    split; [reflexivity|exact Hs].
  - destruct (update_cases endpoint r h (requested env method url w1))
      as (ru & h1 & Hup1 & _ & _ & Hcases).
    rewrite Hup in Hup1. inversion Hup1; subst ru h1; clear Hup1.
    exists (pre ++ [EvRequest method url]).
    split; [reflexivity|]. split; [reflexivity|]. split; [simpl; lia|].
    split; [simpl; rewrite Htp, <- app_assoc; reflexivity|].
    split; [rewrite retries_app, Hrp; reflexivity|].
    split; [reflexivity|].
    split; [rewrite backoff_sleeps_app, Hpre_sl; constructor|].
    right. destruct Hcases as [[H _]|[[H|H] _]]; inversion H; subst.
    + right. left. reflexivity.
    + right. right. reflexivity.
  - destruct (update_cases endpoint r h (requested env method url w1))
      as (ru & h2 & Hup1 & Hcfg & Hother & _).
    rewrite Hup in Hup1. inversion Hup1; subst ru h2; clear Hup1.
    assert (Hmax : max_retries h1 = max_retries h)
      by (unfold config_of in Hcfg; congruence).
    apply retry_path in Hretry as (_ & tr & Hs & Ht & _ & Hr & HF & Hres);
      [|discriminate].
    exists (pre ++ [EvRequest method url] ++ tr).
    simpl in Hs, Ht. rewrite Hsp in *.
    split; [reflexivity|]. split; [exact Hcfg|]. split; [lia|].
    split; [rewrite Ht, Htp, <- !app_assoc; reflexivity|].
    split; [rewrite !retries_app, Hrp, Hr; reflexivity|].
    split; [exact Hother|].
    split.
    { rewrite !backoff_sleeps_app, Hpre_sl. simpl. revert HF.
      apply List.Forall_impl. intros d. now apply backoff_of_pass_config. }
    rewrite Hreply. unfold verdict. apply Z.eqb_eq in H429. rewrite H429.
    rewrite Hmax in Hres.
    destruct Hres as [->|[Hesc _]]; [left|right; exact Hesc].
    split; [reflexivity|exact Hs].
  - destruct (update_cases endpoint r h (requested env method url w1))
      as (ru & h2 & Hup1 & Hcfg & Hother & _).
    rewrite Hup in Hup1. inversion Hup1; subst ru h2; clear Hup1.
    exists (pre ++ [EvRequest method url]).
    split; [reflexivity|]. split; [exact Hcfg|]. split; [simpl; lia|].
    split; [simpl; rewrite Htp, <- app_assoc; reflexivity|].
    split; [rewrite retries_app, Hrp; reflexivity|].
    split; [exact Hother|].
    split; [rewrite backoff_sleeps_app, Hpre_sl; constructor|].
    left. rewrite Hsp in Hreply. rewrite Hreply. unfold verdict.
    apply Z.eqb_neq in H429. rewrite H429. split; [reflexivity|simpl; lia].
Qed.




(** A pass that returns a response has updated the tracker from it, in the
    world in which it returns. *)
Lemma attempt_returns (method url endpoint : string) (rc : Z)
    (h : RateLimitHandler) (w : World) (r : Response)
    (h' : RateLimitHandler) (w' : World) :
  attempt env method url endpoint rc (h, w) = (Ok (Return r), (h', w')) ->
  _update_rate_limits endpoint r (h, w') = (Ok tt, (h', w')).
Proof.
  intros Ea. apply attempt_pass in Ea.
  inversion Ea as [e Hp|w1 what res w2 Hp Hreply Hretry|w1 r0 e Hp Hreply Hup
                 |w1 r0 h1 res w2 Hp Hreply Hup H429 Hretry|w1 r0 h1 Hp Hreply Hup H429];
    subst; try (now apply retry_or_raise_no_return in Hretry).
  exact Hup.
Qed.

End PassFacts.
(** ** The retry loop *)

Section Loop.

Variable env : Env.
Variables method url endpoint : string.

Lemma verdict_continue (h : RateLimitHandler) (rc : Z) (x : Reply) (rc' : Z) :
  verdict h endpoint rc x = Ok (Continue rc') ->
  rc' = rc + 1 /\ rc + 1 <= max_retries h.
Proof.
  unfold verdict. destruct x as [r|what].
  - destruct (status_code r =? 429); [|discriminate].
    destruct (rc + 1 >? max_retries h) eqn:E; [discriminate|].
    intros [= <-]. split; [reflexivity|]. rewrite Z.gtb_ltb in E. apply Z.ltb_ge in E. lia.
  - destruct (rc + 1 >? max_retries h) eqn:E; [discriminate|].
    intros [= <-]. split; [reflexivity|]. rewrite Z.gtb_ltb in E. apply Z.ltb_ge in E. lia.
Qed.

Lemma verdict_return (h : RateLimitHandler) (rc : Z) (x : Reply) (r : Response) :
  verdict h endpoint rc x = Ok (Return r) ->
  x = Resp r /\ (status_code r =? 429) = false.
Proof.
  unfold verdict. destruct x as [r'|what].
  - destruct (status_code r' =? 429) eqn:E.
    + destruct (rc + 1 >? max_retries h); discriminate.
    + intros [= <-]. auto.
  - destruct (rc + 1 >? max_retries h); discriminate.
Qed.

Lemma verdict_raise (h : RateLimitHandler) (rc : Z) (x : Reply) (e : exn) :
  verdict h endpoint rc x = Raise e ->
  (is_429 x = true /\ e = RateLimitExceeded InLoop endpoint (max_retries h)) \/
  (exists what : string, x = Fail what /\ e = RequestException what).
Proof.
  unfold verdict. destruct x as [r|what]; simpl.
  - destruct (status_code r =? 429); [|discriminate].
    destruct (rc + 1 >? max_retries h); [|discriminate].
    intros [= <-]. auto.
  - destruct (rc + 1 >? max_retries h); [|discriminate].
    intros [= <-]. eauto.
Qed.



(** The loop ends within the fuel; the attributes of the handler and the
    entries of the other endpoints stay; it calls the transport at most
    [max_retries + 1 - retry_count] times and makes at most
    [max_retries - retry_count] backoff sleeps, each within the bounds of
    the handler; entered with the condition false it raises at once;
    entered with the condition true it ends by a statement of the body or
    by an escaped exception of a library call. *)
Lemma retry_loop_run (fuel : nat) :
  forall (rc : Z) (h : RateLimitHandler) (w : World),
    (Z.to_nat (max_retries h + 1 - rc) < fuel)%nat ->
    exists (res : Result Response) (h' : RateLimitHandler) (w' : World)
           (tr : list Event),
      retry_loop env fuel method url endpoint rc (h, w) = Some (res, (h', w')) /\
      config_of h' = config_of h /\
      trace w' = trace w ++ tr /\
      (sent w <= sent w')%nat /\
      Z.of_nat (sent w') - Z.of_nat (sent w) <= Z.max 0 (max_retries h + 1 - rc) /\
      Z.of_nat (retries tr) <= Z.max 0 (max_retries h - rc) /\
      (forall other : string, other <> endpoint ->
         _rate_limits h' !! other = _rate_limits h !! other) /\
      Forall (backoff_in_bounds h) (backoff_sleeps tr) /\
      (max_retries h < rc ->
       res = Raise (RateLimitExceeded AfterLoop endpoint (max_retries h)) /\
       h' = h /\ w' = w) /\
      (rc <= max_retries h -> ends_in_loop env h endpoint res \/ escaped res).
Proof.
  induction fuel as [|fuel IH]; intros rc h w Hfuel; [lia|].
  simpl. change (fst (h, w)) with h.
  destruct (rc <=? max_retries h) eqn:Hcond.
  2:{ apply Z.leb_gt in Hcond.
      exists (Raise (RateLimitExceeded AfterLoop endpoint (max_retries h))), h, w, [].
      rewrite app_nil_r.
      split; [reflexivity|]. split; [reflexivity|]. split; [reflexivity|].
      split; [lia|]. split; [lia|]. split; [unfold retries; simpl; lia|].
      split; [reflexivity|]. split; [constructor|].
      split; [auto|]. intros; lia. }
  apply Z.leb_le in Hcond.
  destruct (attempt_run env method url endpoint rc h w)
    as (res & h1 & w1 & tr1 & Hrun & Hcfg & Hs & Ht & Hr & Hother & HF & Hres).
  rewrite Hrun.
  assert (Hmax : max_retries h1 = max_retries h)
    by (unfold config_of in Hcfg; congruence).
  assert (HF1 : Forall (backoff_in_bounds h) (backoff_sleeps tr1)).
  { revert HF. apply List.Forall_impl. intros d [Hd _]. exact Hd. }
  destruct res as [[rc'|r]|e].
  - destruct Hres as [[Hv Hs1]|[Hv|[Hv|Hv]]]; try discriminate.
    symmetry in Hv. apply verdict_continue in Hv as [-> Hle].
    destruct (IH (rc + 1) h1 w1)
      as (res & h' & w' & tr & Hloop & Hcfg' & Ht' & Hs' & Hcalls & Hret &
          Hother' & HF' & _ & Hend).
    { rewrite Hmax. lia. }
    exists res, h', w', (tr1 ++ tr). rewrite Hloop, Hmax in *.
    split; [reflexivity|]. split; [congruence|].
    split; [rewrite Ht', Ht, app_assoc; reflexivity|].
    split; [lia|]. split; [lia|].
    split; [rewrite retries_app, Hr; simpl; lia|].
    split; [intros other Hne; now rewrite Hother', Hother|].
    split.
    { rewrite backoff_sleeps_app. apply Forall_app. split; [exact HF1|].
      revert HF'. apply List.Forall_impl. intros d.
      now apply backoff_in_bounds_config. }
    split; [lia|].
    intros _. destruct (Hend Hle) as [H|H]; [left|right; exact H].
    unfold ends_in_loop in *. now rewrite Hmax in H.
  - destruct Hres as [[Hv Hs1]|[Hv|[Hv|Hv]]]; try discriminate.
    symmetry in Hv. apply verdict_return in Hv as [Hreply _].
    exists (Ok r), h1, w1, tr1. rewrite Hr. simpl.
    assert (Hend : ends_in_loop env h endpoint (Ok r)) by (left; eauto).
    repeat split; auto; lia.
  - exists (Raise e), h1, w1, tr1. rewrite Hr. simpl.
    assert (Hend : ends_in_loop env h endpoint (Raise e) \/ escaped (@Raise Response e)).
    { destruct Hres as [[Hv _]|Hesc].
      - symmetry in Hv. apply verdict_raise in Hv as [[_ ->]|(what & Hreply & ->)].
        + left. right. left. reflexivity.
        + left. right. right. eauto.
      - right. destruct Hesc as [H|[H|H]]; inversion H; subst;
          [left|right; left|right; right]; reflexivity. }
    repeat split; auto; lia.
Qed.





(** What the loop that returns a response has stored: the last pass made
    the update, in the world in which the loop returns. *)
Lemma retry_loop_returns (fuel : nat) :
  forall (rc : Z) (s : Sys) (r : Response) (h' : RateLimitHandler) (w' : World),
    retry_loop env fuel method url endpoint rc s = Some (Ok r, (h', w')) ->
    exists h0 : RateLimitHandler,
      _update_rate_limits endpoint r (h0, w') = (Ok tt, (h', w')).
Proof.
  induction fuel as [|fuel IH]; intros rc [h w] r h' w'; [discriminate|].
  simpl. destruct (rc <=? max_retries h); [|discriminate].
  destruct (attempt env method url endpoint rc (h, w)) as [[[rc'|r1]|e] [h1 w1]] eqn:Ea.
  - apply IH.
  - intros Hrun; inversion Hrun; subst; clear Hrun.
    exists h. now apply attempt_returns in Ea.
  - discriminate.
Qed.

End Loop.
(** ** Calls of [handle_request] *)

Section Calls.

Variable env : Env.
Variables method url : string.

(** A call of [handle_request] runs the loop from [retry_count = 0] with
    fuel that suffices. *)
Lemma handle_request_run (h : RateLimitHandler) (w : World) :
  exists (res : Result Response) (h' : RateLimitHandler) (w' : World)
         (tr : list Event),
    handle_request env method url (h, w) = Some (res, (h', w')) /\
    config_of h' = config_of h /\
    trace w' = trace w ++ tr /\
    (sent w <= sent w')%nat /\
    Z.of_nat (sent w') - Z.of_nat (sent w) <= Z.max 0 (max_retries h + 1) /\
    Z.of_nat (retries tr) <= Z.max 0 (max_retries h) /\
    (forall other : string, other <> _get_endpoint_key url ->
       _rate_limits h' !! other = _rate_limits h !! other) /\
    Forall (backoff_in_bounds h) (backoff_sleeps tr) /\
    (max_retries h < 0 ->
     res = Raise (RateLimitExceeded AfterLoop (_get_endpoint_key url) (max_retries h)) /\
     h' = h /\ w' = w) /\
    (0 <= max_retries h ->
     ends_in_loop env h (_get_endpoint_key url) res \/ escaped res).
Proof.
  unfold handle_request, enough_fuel. change (fst (h, w)) with h.
  destruct (retry_loop_run env method url (_get_endpoint_key url)
              (S (Z.to_nat (max_retries h + 1))) 0 h w)
    as (res & h' & w' & tr & Hloop & Hrest).
  { rewrite Z.sub_0_r. lia. }
  rewrite !Z.sub_0_r in Hrest.
  exists res, h', w', tr. split; [exact Hloop|exact Hrest].
Qed.





End Calls.
(** ** The retry budget *)








(** C1 as stated does not hold: with [max_retries = 1] and a transport
    that answers 429, then times out, then succeeds, one throttling retry
    and one transient failure are within a budget of one each, yet the
    call ends at the second reply with the exception of the transport and
    never makes the third call. *)
Lemma retry_budgets_not_independent :
  max_retries (handler 1 1 60 false) = 1 /\
  respond throttled_then_down 0 = Resp plain_429 /\
  respond throttled_then_down 1 = Fail "timeout" /\
  respond throttled_then_down 2 = Resp plain_200 /\
  result_of (handle_request throttled_then_down "GET" test_url
               (handler 1 1 60 false, fresh_world 0)) =
    Some (Raise (RequestException "timeout")) /\
  sent <$> world_of (handle_request throttled_then_down "GET" test_url
                       (handler 1 1 60 false, fresh_world 0)) = Some 2%nat.
Proof. vm_compute. repeat split. Qed.

(** C1 (amended). [max_retries] is one budget for both kinds of failure:
    [retry_count] is incremented by a 429 and by a [RequestException]
    alike, so in one call of [handle_request] the throttling retries and
    the transient-failure retries together number at most [max_retries],
    and the transport is called at most [max_retries + 1] times (no
    retry and no call for a negative [max_retries]). *)
Theorem retry_budget_is_shared
    (env : Env) (method url : string) (h : RateLimitHandler) (w : World) :
  exists (res : Result Response) (h' : RateLimitHandler) (w' : World)
         (tr : list Event),
    handle_request env method url (h, w) = Some (res, (h', w')) /\
    trace w' = trace w ++ tr /\
    Z.of_nat (throttle_retries tr + failure_retries tr) <= Z.max 0 (max_retries h) /\
    Z.of_nat (sent w') - Z.of_nat (sent w) <= Z.max 0 (max_retries h + 1).
Proof.
  destruct (handle_request_run env method url h w)
    as (res & h' & w' & tr & Hrun & _ & Ht & _ & Hcalls & Hret & _).
  exists res, h', w', tr. repeat split; auto.
Qed.




(** C3 (the input on which it fails).  The claim: with [min_backoff = 1.0]
    and no jitter, replies 429, 429, 200 give two backoff sleeps of 1.0
    and 2.0 seconds, the first retry using attempt number 0.  The code
    increments [retry_count] before it calls [_calculate_backoff], so the
    sleeps are those of attempt numbers 1 and 2: 2.0 and 4.0 seconds,
    although [_calculate_backoff(0)] is 1.0. *)
Theorem recovery_backoffs_start_at_attempt_one :
  min_backoff (handler 3 1 60 false) = 1%Q /\
  jitter (handler 3 1 60 false) = false /\
  result_of (handle_request throttled_twice "GET" test_url
               (handler 3 1 60 false, fresh_world 0)) = Some (Ok plain_200) /\
  (fun w => backoff_sleeps (trace w)) <$>
    world_of (handle_request throttled_twice "GET" test_url
                (handler 3 1 60 false, fresh_world 0)) = Some [2%Q; 4%Q] /\
  fst (_calculate_backoff throttled_twice 0 (handler 3 1 60 false, fresh_world 0)) =
    Ok 1%Q.
Proof. vm_compute. repeat split. Qed.

(** C4 as stated does not hold: the constructor accepts a negative
    [max_retries] and returns the handler. *)
Lemma negative_max_retries_is_accepted :
  -1 < 0 /\
  __init__ (-1) 1 60 true = Ok (handler (-1) 1 60 true) /\
  ~ exists e : exn, __init__ (-1) 1 60 true = Raise e.
Proof.
  split; [lia|]. split; [reflexivity|]. intros [e He]. discriminate.
Qed.

(** C4 (amended). The constructor validates nothing: it stores the values
    it is given, whatever they are, and never raises.  A negative
    [max_retries] shows only when [handle_request] is called, which then
    raises [RateLimitExceeded] by the statement after the loop, without
    calling the transport and without changing anything. *)
Theorem constructor_never_raises
    (max_retries : Z) (min_backoff max_backoff : Q) (jitter : bool) :
  __init__ max_retries min_backoff max_backoff jitter =
    Ok (handler max_retries min_backoff max_backoff jitter) /\
  (max_retries < 0 ->
   forall (env : Env) (method url : string) (w : World),
     handle_request env method url
       (handler max_retries min_backoff max_backoff jitter, w) =
     Some (Raise (RateLimitExceeded AfterLoop (_get_endpoint_key url) max_retries),
           (handler max_retries min_backoff max_backoff jitter, w))).
Proof.
  split; [reflexivity|]. intros Hneg env method url w.
  unfold handle_request, enough_fuel. simpl.
  apply Z.leb_gt in Hneg. now rewrite Hneg.
Qed.

Lemma constructor_never_raises_witness :
  -1 < 0 /\
  __init__ (-1) 1 60 true = Ok (handler (-1) 1 60 true) /\
  handle_request (always (Resp plain_200)) "GET" test_url
    (handler (-1) 1 60 true, fresh_world 0) =
  Some (Raise (RateLimitExceeded AfterLoop (_get_endpoint_key test_url) (-1)),
        (handler (-1) 1 60 true, fresh_world 0)).
Proof.
  assert (Hneg : -1 < 0) by lia.
  destruct (constructor_never_raises (-1) 1 60 true) as [Hinit Hcall].
  split; [exact Hneg|]. split; [exact Hinit|].
  exact (Hcall Hneg (always (Resp plain_200)) "GET"%string test_url (fresh_world 0)).
Defined.








(** * Further properties *)

(** ** More on the backoff *)

Section BackoffMore.



Lemma Qmin_left (x y : Q) : (x <= y)%Q -> Qmin x y = x.
Proof.
  intros Hle. unfold Qmin, GenericMinMax.gmin.
  destruct (x ?= y)%Q eqn:E; try reflexivity.
  apply Qgt_alt in E. exfalso. exact (Qlt_not_le _ _ E Hle).
Qed.

(** X2. Without jitter [_calculate_backoff] never returns more than
    [max_backoff], for any attempt number from 0 to 1023 (beyond which
    it raises); and once [min_backoff * 2 ^ n] has reached [max_backoff],
    for an [n >= 0] and a non-negative [min_backoff], every attempt from
    [n] to 1023 gets exactly [max_backoff]. *)
Theorem backoff_cap (env : Env) (h : RateLimitHandler) (w : World) (n : Z) :
  jitter h = false ->
  (forall m : Z, 0 <= m <= 1023 ->
     exists d : Q,
       _calculate_backoff env m (h, w) = (Ok d, (h, w)) /\ (d <= max_backoff h)%Q) /\
  (0 <= n ->
   (0 <= min_backoff h)%Q ->
   (max_backoff h <= min_backoff h * 2 ^ n)%Q ->
   forall m : Z, n <= m <= 1023 ->
     _calculate_backoff env m (h, w) = (Ok (max_backoff h), (h, w))).
Proof.
  intros Hj. split.
  - intros m [_ Hm]. exists (exponential h m).
    split; [now apply calculate_backoff_plain|apply exponential_cap].
  - intros _ Hmin Hreach m [Hnm Hm].
    rewrite calculate_backoff_plain by assumption.
    assert (Hpow : (2 ^ n <= 2 ^ m)%Q)
      by (apply Qpower_le_compat_l; [exact Hnm | discriminate]).
    assert (Hle : (max_backoff h <= min_backoff h * 2 ^ m)%Q).
    { apply Qle_trans with (y := (min_backoff h * 2 ^ n)%Q); [exact Hreach|].
      rewrite !(Qmult_comm (min_backoff h)).
      apply Qmult_le_compat_r; assumption. }
    unfold exponential, Py.min. now rewrite Qmin_left.
Qed.

Lemma backoff_cap_witness :
  jitter (handler 2 (1 # 10) (3 # 10) false) = false /\
  0 <= 2 /\
  (0 <= min_backoff (handler 2 (1 # 10) (3 # 10) false))%Q /\
  (max_backoff (handler 2 (1 # 10) (3 # 10) false) <=
   min_backoff (handler 2 (1 # 10) (3 # 10) false) * 2 ^ 2)%Q /\
  2 <= 5 <= 1023 /\
  _calculate_backoff (always (Resp plain_429)) 5
      (handler 2 (1 # 10) (3 # 10) false, fresh_world 0) =
    (Ok (3 # 10), (handler 2 (1 # 10) (3 # 10) false, fresh_world 0)) /\
  exists d : Q,
    _calculate_backoff (always (Resp plain_429)) 1
        (handler 2 (1 # 10) (3 # 10) false, fresh_world 0) =
      (Ok d, (handler 2 (1 # 10) (3 # 10) false, fresh_world 0)) /\
    (d <= max_backoff (handler 2 (1 # 10) (3 # 10) false))%Q.
Proof.
  assert (Hmin : (0 <= min_backoff (handler 2 (1 # 10) (3 # 10) false))%Q)
    by discriminate.
  assert (Hreach : (max_backoff (handler 2 (1 # 10) (3 # 10) false) <=
                    min_backoff (handler 2 (1 # 10) (3 # 10) false) * 2 ^ 2)%Q)
    by discriminate.
  assert (Hnm : 2 <= 5 <= 1023) by lia.
  assert (H1 : 0 <= 1 <= 1023) by lia.
  assert (Hn : 0 <= 2) by lia.
  split; [reflexivity|]. split; [exact Hn|]. split; [exact Hmin|]. split; [exact Hreach|].
  split; [exact Hnm|]. split.
  - exact (proj2 (backoff_cap (always (Resp plain_429))
                    (handler 2 (1 # 10) (3 # 10) false) (fresh_world 0) 2 eq_refl)
             Hn Hmin Hreach 5 Hnm).
  - exact (proj1 (backoff_cap (always (Resp plain_429))
                    (handler 2 (1 # 10) (3 # 10) false) (fresh_world 0) 2 eq_refl)
             1 H1).
Defined.

End BackoffMore.

(** ** More on the quota tracker *)

Section TrackerMore.

(** X3. When the three rate-limit headers of a response are integer
    literals and the reset lies in the range that [datetime.fromtimestamp]
    converts, [_update_rate_limits] returns normally and stores, under the
    endpoint, the limit, the remaining quota, the reset as a time and the
    current time; the entries of all other endpoints are as before and the
    world is untouched. *)
Theorem update_records_snapshot
    (endpoint : string) (resp : Response) (h : RateLimitHandler) (w : World)
    (l r t : Z) :
  quota_of resp l r t ->
  Py.datetime_min <= t <= Py.datetime_max ->
  _update_rate_limits endpoint resp (h, w) =
    (Ok tt, (tracking h endpoint (snapshot l r t w), w)) /\
  _rate_limits (tracking h endpoint (snapshot l r t w)) !! endpoint =
    Some (snapshot l r t w) /\
  (forall other : string, other <> endpoint ->
     _rate_limits (tracking h endpoint (snapshot l r t w)) !! other =
     _rate_limits h !! other).
Proof.
  intros Hq Hrange.
  split; [now apply update_run_snapshot|].
  split; [apply tracking_lookup|intros; now apply tracking_lookup_other].
Qed.

Lemma update_records_snapshot_witness :
  quota_of (response 200 (quota_headers "100" "99" "1700000000")) 100 99 1700000000 /\
  Py.datetime_min <= 1700000000 <= Py.datetime_max /\
  _update_rate_limits "v2/test" (response 200 (quota_headers "100" "99" "1700000000"))
      (tracking (handler 3 1 60 true) "email/send" quota_spent, fresh_world 1000) =
    (Ok tt,
     (tracking (tracking (handler 3 1 60 true) "email/send" quota_spent)
        "v2/test" (snapshot 100 99 1700000000 (fresh_world 1000)),
      fresh_world 1000)).
Proof.
  assert (Hq : quota_of (response 200 (quota_headers "100" "99" "1700000000"))
                 100 99 1700000000) by (repeat split).
  assert (Ht : Py.datetime_min <= 1700000000 <= Py.datetime_max)
    by (unfold Py.datetime_min, Py.datetime_max; lia).
  split; [exact Hq|]. split; [exact Ht|].
  exact (proj1 (update_records_snapshot "v2/test"
                  (response 200 (quota_headers "100" "99" "1700000000"))
                  (tracking (handler 3 1 60 true) "email/send" quota_spent)
                  (fresh_world 1000) 100 99 1700000000 Hq Ht)).
Defined.

(** X4. [_update_rate_limits] is all or nothing.  Whatever the response,
    it leaves the world, the retry configuration and the entries of the
    other endpoints alone, and the handler afterwards is either the
    handler before or the handler with the complete snapshot of three
    integer headers; when it raises, or when a header is absent, empty or
    not an integer, nothing has been stored. *)
Theorem update_all_or_nothing
    (endpoint : string) (resp : Response) (h : RateLimitHandler) (w : World) :
  exists (res : Result unit) (h' : RateLimitHandler),
    _update_rate_limits endpoint resp (h, w) = (res, (h', w)) /\
    config_of h' = config_of h /\
    (forall other : string, other <> endpoint ->
       _rate_limits h' !! other = _rate_limits h !! other) /\
    (h' = h \/
     exists l r t : Z,
       quota_of resp l r t /\ res = Ok tt /\
       h' = tracking h endpoint (snapshot l r t w)).
Proof.
  exact (update_outcome endpoint resp h w).
Qed.

(** X5. The decision that [_should_retry] takes right after an update
    from three convertible integer headers is determined by these
    headers: no wait when the remaining quota is positive; a wait of
    (reset - now + 1) seconds when the quota is used up and the reset is
    ahead; no wait when the quota is used up and the reset has passed. *)
Theorem update_then_decision
    (endpoint : string) (resp : Response) (h : RateLimitHandler) (w : World)
    (l r t : Z) :
  quota_of resp l r t ->
  Py.datetime_min <= t <= Py.datetime_max ->
  (0 < r ->
   (_update_rate_limits endpoint resp ;;; _should_retry endpoint) (h, w) =
     (Ok (true, 0%Q), (tracking h endpoint (snapshot l r t w), w))) /\
  (r <= 0 -> (now w < inject_Z t)%Q ->
   (_update_rate_limits endpoint resp ;;; _should_retry endpoint) (h, w) =
     (Ok (true, (inject_Z t - now w + 1)%Q),
      (tracking h endpoint (snapshot l r t w), w))) /\
  (r <= 0 -> (inject_Z t <= now w)%Q ->
   (_update_rate_limits endpoint resp ;;; _should_retry endpoint) (h, w) =
     (Ok (true, 0%Q), (tracking h endpoint (snapshot l r t w), w))).
Proof.
  intros Hq Ht.
  pose proof (update_run_snapshot endpoint resp h w l r t Hq Ht) as Hrun.
  pose proof (tracking_lookup h endpoint (snapshot l r t w)) as Hlk.
  unfold bind. rewrite Hrun.
  unfold _should_retry, bind, self, datetime_now, world, ret.
  cbn [fst snd]. rewrite Hlk.
  change (remaining (snapshot l r t w)) with r.
  change (reset (snapshot l r t w)) with (inject_Z t).
  repeat split.
  - intros Hr. apply Z.gtb_lt in Hr. now rewrite Hr.
  - intros Hr Hlt. destruct (Z.gtb_spec r 0) as [|_]; [lia|].
    unfold bind. cbn [fst snd now].
    apply Qgtb_true in Hlt. now rewrite Hlt.
  - intros Hr Hle. destruct (Z.gtb_spec r 0) as [|_]; [lia|].
    unfold bind. cbn [fst snd now].
    apply Qgtb_false in Hle. now rewrite Hle.
Qed.

Lemma update_then_decision_witness :
  quota_of (response 429 (quota_headers "100" "0" "1005")) 100 0 1005 /\
  Py.datetime_min <= 1005 <= Py.datetime_max /\
  0 <= 0 /\ (now (fresh_world 1000) < inject_Z 1005)%Q /\
  (_update_rate_limits "v2/test" (response 429 (quota_headers "100" "0" "1005")) ;;;
   _should_retry "v2/test") (handler 3 1 60 true, fresh_world 1000) =
    (Ok (true, (inject_Z 1005 - now (fresh_world 1000) + 1)%Q),
     (tracking (handler 3 1 60 true) "v2/test" (snapshot 100 0 1005 (fresh_world 1000)),
      fresh_world 1000)).
Proof.
  assert (Hq : quota_of (response 429 (quota_headers "100" "0" "1005")) 100 0 1005)
    by (repeat split).
  assert (Ht : Py.datetime_min <= 1005 <= Py.datetime_max)
    by (unfold Py.datetime_min, Py.datetime_max; lia).
  assert (Hr : 0 <= 0) by lia.
  assert (Hlt : (now (fresh_world 1000) < inject_Z 1005)%Q) by reflexivity.
  split; [exact Hq|]. split; [exact Ht|]. split; [exact Hr|]. split; [exact Hlt|].
  exact (proj1 (proj2 (update_then_decision "v2/test"
                         (response 429 (quota_headers "100" "0" "1005"))
                         (handler 3 1 60 true) (fresh_world 1000) 100 0 1005 Hq Ht))
           Hr Hlt).
Defined.



End TrackerMore.



(** ** More on the loop *)

Section LoopMore.

(** X7. A call of [handle_request] for a URL terminates, keeps the retry
    configuration, and touches no entry of the tracking dict other than
    that of the endpoint key of the URL. *)
Theorem handle_request_keeps_other_entries
    (env : Env) (method url : string) (h : RateLimitHandler) (w : World) :
  exists (res : Result Response) (h' : RateLimitHandler) (w' : World),
    handle_request env method url (h, w) = Some (res, (h', w')) /\
    config_of h' = config_of h /\
    (forall other : string, other <> _get_endpoint_key url ->
       _rate_limits h' !! other = _rate_limits h !! other).
Proof.
  destruct (handle_request_run env method url h w)
    as (res & h' & w' & tr & Hrun & Hcfg & _ & _ & _ & _ & Hother & _).
  exists res, h', w'. auto.
Qed.

Lemma total_bounded (ds : list Q) (B : Q) :
  (0 <= B)%Q -> Forall (fun d => (d <= B)%Q) ds ->
  (fold_right Qplus 0 ds <= inject_Z (Z.of_nat (length ds)) * B)%Q.
Proof.
  intros HB HF. induction HF as [|d ds Hd HF IH].
  - cbn [fold_right length]. change (inject_Z (Z.of_nat 0)) with 0%Q. lra.
  - cbn [fold_right length]. rewrite Nat2Z.inj_succ. unfold Z.succ.
    rewrite inject_Z_plus. change (inject_Z 1) with 1%Q. lra.
Qed.

(** X8. For every handler, world and transport, [handle_request]
    terminates, and each backoff sleep it made was for a duration that is
    not negative, at most one and a half times [max_backoff], and at most
    [max_backoff] without jitter.  There are at most [max_retries] such
    sleeps, so their total is at most
    [max_retries * 3/2 * max_backoff] seconds (a negative [max_retries]
    or [max_backoff] counting as 0). *)
Theorem backoff_sleeps_are_bounded
    (env : Env) (method url : string) (h : RateLimitHandler) (w : World) :
  exists (res : Result Response) (h' : RateLimitHandler) (w' : World)
         (tr : list Event),
    handle_request env method url (h, w) = Some (res, (h', w')) /\
    trace w' = trace w ++ tr /\
    Forall (backoff_in_bounds h) (backoff_sleeps tr) /\
    Z.of_nat (length (backoff_sleeps tr)) <= Z.max 0 (max_retries h) /\
    (total_backoff tr <=
     inject_Z (Z.max 0 (max_retries h)) * ((3 # 2) * Qmax 0 (max_backoff h)))%Q.
Proof.
  destruct (handle_request_run env method url h w)
    as (res & h' & w' & tr & Hrun & _ & Ht & _ & _ & Hret & _ & HF & _).
  exists res, h', w', tr. split; [exact Hrun|]. split; [exact Ht|].
  rewrite backoff_sleeps_length.
  split; [exact HF|]. split; [exact Hret|].
  set (B := ((3 # 2) * Qmax 0 (max_backoff h))%Q).
  assert (HB : (0 <= B)%Q).
  { unfold B. pose proof (Q.le_max_l 0 (max_backoff h)). nra. }
  assert (HFB : Forall (fun d => (d <= B)%Q) (backoff_sleeps tr)).
  { revert HF. apply List.Forall_impl. intros d (_ & Hd & _). unfold B.
    pose proof (Q.le_max_r 0 (max_backoff h)). nra. }
  unfold total_backoff.
  apply Qle_trans with (y := (inject_Z (Z.of_nat (length (backoff_sleeps tr))) * B)%Q).
  - now apply total_bounded.
  - rewrite backoff_sleeps_length. apply Qmult_le_compat_r; [|exact HB].
    rewrite <- Zle_Qle. exact Hret.
Qed.

End LoopMore.


(** ** Runs of failures *)

Section Failures.





End Failures.


(** ** The wait before a request *)

Section WaitFirst.





End WaitFirst.

(** ** The URL of a request *)

Section RequestUrl.
Import Str StrFacts.

Lemma append_nil_r (s : string) : s +:+ "" = s.
Proof.
  induction s as [|c s IH]; [reflexivity|].
  change (String c (s +:+ "") = String c s). now rewrite IH.
Qed.

Lemma lstrip_chars_app_all (c : ascii) (t l : list ascii) :
  forallb (fun x => Ascii.eqb x c) t = true ->
  Strip.lstrip_chars c (t ++ l) = Strip.lstrip_chars c l.
Proof.
  induction t as [|x t IH]; simpl; [reflexivity|].
  intros H. apply andb_true_iff in H as [Hx Ht]. rewrite Hx. now apply IH.
Qed.

Lemma rstrip_app_all (c : ascii) (s t : string) :
  all_of c t = true -> rstrip c (s +:+ t) = rstrip c s.
Proof.
  intros Ht. unfold rstrip. rewrite chars_app.
  now rewrite rstrip_chars_app_all.
Qed.

Lemma lstrip_app_all (c : ascii) (t s : string) :
  all_of c t = true -> Strip.lstrip c (t +:+ s) = Strip.lstrip c s.
Proof.
  intros Ht. unfold Strip.lstrip. rewrite chars_app.
  now rewrite lstrip_chars_app_all.
Qed.

(** X12. Trailing slashes and a query string do not change the endpoint
    key: for a URL [u] without a question mark, a run [t] of slashes and a
    query [qs] (empty, or starting with a question mark), the key of
    [u ++ t ++ qs] is the key of [u]. *)
Theorem endpoint_key_ignores_query_and_slashes (u t qs : string) :
  free_of "?" u = true ->
  all_of "/" t = true ->
  is_query_suffix qs = true ->
  _get_endpoint_key (u +:+ t +:+ qs) = _get_endpoint_key u.
Proof.
  intros Hu Ht Hqs. unfold _get_endpoint_key.
  rewrite <- append_assoc.
  rewrite before_query; [|unfold free_of|exact Hqs].
  2:{ rewrite chars_app, forallb_app. unfold free_of in Hu. rewrite Hu.
      now rewrite (forallb_all_to_free "/" "?" (chars t)). }
  rewrite <- (append_nil_r u) at 2.
  rewrite before_query by auto.
  now rewrite rstrip_app_all.
Qed.

Lemma endpoint_key_ignores_query_and_slashes_witness :
  free_of "?" "https://eu-api.mimecast.com/api/v2/email/send" = true /\
  all_of "/" "//" = true /\
  is_query_suffix "?page=2&x=a?b" = true /\
  _get_endpoint_key "https://eu-api.mimecast.com/api/v2/email/send//?page=2&x=a?b" =
    _get_endpoint_key "https://eu-api.mimecast.com/api/v2/email/send".
Proof.
  split; [reflexivity|]. split; [reflexivity|]. split; [reflexivity|].
  exact (endpoint_key_ignores_query_and_slashes
           "https://eu-api.mimecast.com/api/v2/email/send" "//" "?page=2&x=a?b"
           eq_refl eq_refl eq_refl).
Defined.

(** X13. The URL that [MimecastClient.request] builds joins base and
    endpoint with exactly one slash, however many slashes end the base
    URL and start the endpoint: for [b] not ending in a slash, [e] not
    starting with one, and runs of slashes [t1] and [t2], the URL of the
    base [b ++ t1] and the endpoint [t2 ++ e] is [b ++ "/" ++ e]. *)
Theorem request_url_joins_with_one_slash (b e t1 t2 : string) :
  rstrip "/" b = b ->
  Strip.lstrip "/" e = e ->
  all_of "/" t1 = true ->
  all_of "/" t2 = true ->
  Client.request_url (b +:+ t1) (t2 +:+ e) = b +:+ "/" +:+ e.
Proof.
  intros Hb He Ht1 Ht2. unfold Client.request_url.
  now rewrite rstrip_app_all, lstrip_app_all, Hb, He.
Qed.

Lemma request_url_joins_with_one_slash_witness :
  rstrip "/" "https://eu-api.mimecast.com" = "https://eu-api.mimecast.com"%string /\
  Strip.lstrip "/" "api/v2/discovery" = "api/v2/discovery"%string /\
  all_of "/" "//" = true /\
  all_of "/" "/" = true /\
  Client.request_url "https://eu-api.mimecast.com//" "/api/v2/discovery" =
    "https://eu-api.mimecast.com/api/v2/discovery"%string.
Proof.
  split; [reflexivity|]. split; [reflexivity|]. split; [reflexivity|].
  split; [reflexivity|].
  exact (request_url_joins_with_one_slash "https://eu-api.mimecast.com"
           "api/v2/discovery" "//" "/" eq_refl eq_refl eq_refl eq_refl).
Defined.

End RequestUrl.


Section RequestBucket.
Import Str StrFacts.

Lemma rstrip_chars_forallb (P : ascii -> bool) (c : ascii) (l : list ascii) :
  forallb P l = true -> forallb P (rstrip_chars c l) = true.
Proof.
  induction l as [|x l IH]; simpl; [reflexivity|].
  intros H. apply andb_true_iff in H as [Hx Hl]. specialize (IH Hl).
  destruct (rstrip_chars c l) as [|y r].
  - destruct (Ascii.eqb x c); simpl; [reflexivity|now rewrite Hx].
  - simpl in *. now rewrite Hx, IH.
Qed.

Lemma lstrip_chars_fixed_app (c : ascii) (p l : list ascii) :
  p <> [] -> Strip.lstrip_chars c p = p -> Strip.lstrip_chars c (p ++ l) = p ++ l.
Proof.
  destruct p as [|x p]; [contradiction|]. intros _. simpl.
  destruct (Ascii.eqb x c) eqn:E; [|reflexivity].
  intros H. exfalso.
  assert (Hlen : forall q, (length (Strip.lstrip_chars c q) <= length q)%nat).
  { induction q as [|y q IHq]; simpl; [lia|]. destruct (Ascii.eqb y c); simpl; lia. }
  specialize (Hlen p). rewrite H in Hlen. simpl in Hlen. lia.
Qed.

Lemma lstrip_fixed_app (c : ascii) (p s : string) :
  nonempty p = true -> Strip.lstrip c p = p -> Strip.lstrip c (p +:+ s) = p +:+ s.
Proof.
  intros Hne Hp. unfold Strip.lstrip in *. rewrite chars_app.
  apply (f_equal chars) in Hp. rewrite chars_of_chars in Hp.
  rewrite lstrip_chars_fixed_app; [|now apply nonempty_chars|exact Hp].
  now rewrite of_chars_app, !of_chars_chars.
Qed.

(** X14. The rate-limit bucket of a client request depends on the
    endpoint only: when the endpoint is a non-empty prefix followed by
    the segments [a] and [b], the key of the URL that [request] builds is
    [a/b] for every base URL without a question mark, with any leading
    slashes on the endpoint, any trailing slashes and any query. *)
Theorem request_bucket_ignores_base_url (base lead p a b t qs : string) :
  free_of "?" base = true ->
  all_of "/" lead = true ->
  nonempty p = true ->
  Strip.lstrip "/" p = p ->
  segments_ok a b = true ->
  affixes_ok p t qs = true ->
  _get_endpoint_key (Client.request_url base (lead +:+ url_ending_in p a b t qs)) =
    a +:+ "/" +:+ b.
Proof.
  intros Hbase Hlead Hne Hp Hab Haff.
  unfold Client.request_url. rewrite lstrip_app_all by exact Hlead.
  unfold url_ending_in at 1. rewrite lstrip_fixed_app by assumption.
  replace (rstrip "/" base +:+ "/" +:+ p +:+ "/" +:+ a +:+ "/" +:+ b +:+ t +:+ qs)
    with (url_ending_in (rstrip "/" base +:+ "/" +:+ p) a b t qs)
    by (unfold url_ending_in; now rewrite !append_assoc).
  apply endpoint_key_of_url; [exact Hab|].
  unfold affixes_ok in *. apply andb_true_iff in Haff as [Haff Hqs].
  apply andb_true_iff in Haff as [Hpq Ht]. rewrite Ht, Hqs, !andb_true_r.
  unfold free_of, rstrip in *. rewrite !chars_app, chars_of_chars, !forallb_app.
  rewrite (rstrip_chars_forallb _ _ _ Hbase), Hpq. reflexivity.
Qed.

Lemma request_bucket_ignores_base_url_witness :
  free_of "?" "https://eu-api.mimecast.com/" = true /\
  all_of "/" "/" = true /\
  nonempty "api" = true /\
  Strip.lstrip "/" "api" = "api"%string /\
  segments_ok "v2" "discovery" = true /\
  affixes_ok "api" "" "?limit=5" = true /\
  _get_endpoint_key
    (Client.request_url "https://eu-api.mimecast.com/" "/api/v2/discovery?limit=5") =
    "v2/discovery"%string.
Proof.
  do 6 (split; [reflexivity|]).
  exact (request_bucket_ignores_base_url "https://eu-api.mimecast.com/" "/"
           "api" "v2" "discovery" "" "?limit=5"
           eq_refl eq_refl eq_refl eq_refl eq_refl eq_refl).
Defined.

End RequestBucket.


(** ** Authentication *)

Section AuthFacts.

Lemma timedelta_in_range (n : Z) :
  -86399999913600 <= n <= 86399999999999 ->
  Time.timedelta_seconds n = Ok (inject_Z n).
Proof.
  intros [H1 H2]. unfold Time.timedelta_seconds.
  apply Z.leb_le in H1, H2. now rewrite H1, H2.
Qed.

Lemma datetime_add_in_range (t d : Q) :
  (-62135596800 <= t + d)%Q -> (t + d < 253402300800)%Q ->
  Time.datetime_add t d = Ok (t + d)%Q.
Proof.
  intros H1 H2. unfold Time.datetime_add.
  apply Qle_bool_iff in H1. apply Qgtb_true in H2. now rewrite H1, H2.
Qed.

(** A grant in range is stored with its expiry, 300 seconds short. *)
Lemma get_access_token_granted (aenv : AuthEnv) (a : Auth.MimecastAuth)
    (cw : ClientWorld) (token : string) (n : Z) :
  token_reply aenv (token_requests cw) = Token token n ->
  grant_in_range (grant_time aenv cw) n ->
  Auth._get_access_token aenv (a, cw) =
    (Ok token, (granted a token (grant_time aenv cw) n,
                Auth.after_token_request aenv cw)).
Proof.
  intros Hreply (Hd & H1 & H2). unfold Auth._get_access_token. rewrite Hreply.
  rewrite (timedelta_in_range _ Hd).
  change (now (api (Auth.after_token_request aenv cw))) with (grant_time aenv cw).
  now rewrite (datetime_add_in_range _ _ H1 H2).
Qed.

(** X15. A first call of [get_auth_headers] that is granted a non-empty
    token makes one request to the token endpoint and returns the header
    [Authorization: Bearer <token>]; every later call made before the
    expiry, which is the time of the grant plus [expires_in - 300]
    seconds, returns the same headers without a request to the token
    endpoint and without changing the object.  (The expiry is assumed to
    be in the range of [timedelta] and [datetime].) *)
Theorem token_is_reused_until_expiry
    (aenv : AuthEnv) (a : Auth.MimecastAuth) (cw : ClientWorld)
    (token : string) (n : Z) :
  Auth._token a = None ->
  token_reply aenv (token_requests cw) = Token token n ->
  Str.nonempty token = true ->
  grant_in_range (grant_time aenv cw) n ->
  Auth.get_auth_headers aenv (a, cw) =
    (Ok (Auth.auth_headers (granted a token (grant_time aenv cw) n)),
     (granted a token (grant_time aenv cw) n, Auth.after_token_request aenv cw)) /\
  Auth.auth_headers (granted a token (grant_time aenv cw) n) !! "Authorization"%string =
    Some ("Bearer " +:+ token) /\
  (forall (aenv' : AuthEnv) (cw2 : ClientWorld),
     (now (api cw2) < grant_time aenv cw + inject_Z (n - 300))%Q ->
     Auth.get_auth_headers aenv' (granted a token (grant_time aenv cw) n, cw2) =
       (Ok (Auth.auth_headers (granted a token (grant_time aenv cw) n)),
        (granted a token (grant_time aenv cw) n, cw2))).
Proof.
  intros Hnone Hreply Hne Hrange. split; [|split].
  - unfold Auth.get_auth_headers, Auth.token_is_stale. rewrite Hnone.
    now rewrite (get_access_token_granted aenv a cw token n Hreply Hrange).
  - reflexivity.
  - intros aenv' cw2 Hlt.
    unfold Auth.get_auth_headers, Auth.token_is_stale.
    cbn [granted Auth.set_token_expiry Auth.set_token Auth._token
         Auth._token_expiry].
    rewrite Hne.
    assert (E : Qle_bool (grant_time aenv cw + inject_Z (n - 300)) (now (api cw2)) = false).
    { destruct (Qle_bool _ _) eqn:E; [|reflexivity].
      apply Qle_bool_iff in E. exfalso. exact (Qlt_not_le _ _ Hlt E). }
    now rewrite E.
Qed.

Lemma grant_in_range_example (n : Z) :
  0 <= n <= 86400 -> grant_in_range (grant_time (granting "tok" n) (fresh_client_world 1000)) n.
Proof.
  intros Hn. unfold grant_in_range, grant_time. cbn.
  split; [lia|].
  assert (H1 : (inject_Z (-300) <= inject_Z (n - 300))%Q) by (rewrite <- Zle_Qle; lia).
  assert (H2 : (inject_Z (n - 300) <= inject_Z 86100)%Q) by (rewrite <- Zle_Qle; lia).
  change (inject_Z (-300)) with (-300)%Q in H1.
  change (inject_Z 86100) with 86100%Q in H2.
  split; lra.
Qed.

Lemma token_is_reused_until_expiry_witness :
  Auth._token (Auth.__init__ "id" "secret" None) = None /\
  token_reply (granting "tok" 3600) (token_requests (fresh_client_world 1000)) =
    Token "tok" 3600 /\
  Str.nonempty "tok" = true /\
  grant_in_range (grant_time (granting "tok" 3600) (fresh_client_world 1000)) 3600 /\
  (now (api (fresh_client_world 4299)) <
   grant_time (granting "tok" 3600) (fresh_client_world 1000) + inject_Z (3600 - 300))%Q /\
  Auth.get_auth_headers (refusing "down")
    (granted (Auth.__init__ "id" "secret" None) "tok"
       (grant_time (granting "tok" 3600) (fresh_client_world 1000)) 3600,
     fresh_client_world 4299) =
  (Ok (Auth.auth_headers
         (granted (Auth.__init__ "id" "secret" None) "tok"
            (grant_time (granting "tok" 3600) (fresh_client_world 1000)) 3600)),
   (granted (Auth.__init__ "id" "secret" None) "tok"
      (grant_time (granting "tok" 3600) (fresh_client_world 1000)) 3600,
    fresh_client_world 4299)).
Proof.
  assert (Hr : grant_in_range
                 (grant_time (granting "tok" 3600) (fresh_client_world 1000)) 3600)
    by (apply grant_in_range_example; lia).
  assert (Hlt : (now (api (fresh_client_world 4299)) <
                 grant_time (granting "tok" 3600) (fresh_client_world 1000) +
                 inject_Z (3600 - 300))%Q) by reflexivity.
  split; [reflexivity|]. split; [reflexivity|]. split; [reflexivity|].
  split; [exact Hr|]. split; [exact Hlt|].
  exact (proj2 (proj2 (token_is_reused_until_expiry (granting "tok" 3600)
                         (Auth.__init__ "id" "secret" None) (fresh_client_world 1000)
                         "tok" 3600 eq_refl eq_refl eq_refl Hr))
           (refusing "down") (fresh_client_world 4299) Hlt).
Defined.

(** X16. A token granted for 300 seconds or less is never reused: the
    buffer of five minutes puts its expiry at or before the time of the
    grant, so every later call of [get_auth_headers] makes a new request
    to the token endpoint. *)
Theorem short_lived_token_is_never_reused
    (aenv : AuthEnv) (a : Auth.MimecastAuth) (cw : ClientWorld)
    (token : string) (n : Z) :
  Auth._token a = None ->
  token_reply aenv (token_requests cw) = Token token n ->
  grant_in_range (grant_time aenv cw) n ->
  n <= 300 ->
  Auth.get_auth_headers aenv (a, cw) =
    (Ok (Auth.auth_headers (granted a token (grant_time aenv cw) n)),
     (granted a token (grant_time aenv cw) n, Auth.after_token_request aenv cw)) /\
  (forall (aenv' : AuthEnv) (cw2 : ClientWorld),
     (grant_time aenv cw <= now (api cw2))%Q ->
     token_requests
       (snd (snd (Auth.get_auth_headers aenv'
                    (granted a token (grant_time aenv cw) n, cw2)))) =
     S (token_requests cw2)).
Proof.
  intros Hnone Hreply Hrange Hn. split.
  - unfold Auth.get_auth_headers, Auth.token_is_stale. rewrite Hnone.
    now rewrite (get_access_token_granted aenv a cw token n Hreply Hrange).
  - intros aenv' cw2 Hle.
    assert (Hrun : forall s, token_requests
              (snd (snd (match Auth._get_access_token aenv' s with
                         | (Ok _, (a', cw')) => (Ok (Auth.auth_headers a'), (a', cw'))
                         | (Raise e, s') => (Raise e, s')
                         end))) = S (token_requests (snd s))).
    { intros [a0 cw0]. unfold Auth._get_access_token.
      destruct (token_reply aenv' (token_requests cw0)) as [what|tok m];
        [reflexivity|].
      destruct (Time.timedelta_seconds (m - 300)) as [d|e]; [|reflexivity].
      destruct (Time.datetime_add _ d); reflexivity. }
    unfold Auth.get_auth_headers, Auth.token_is_stale.
    cbn [granted Auth.set_token_expiry Auth.set_token Auth._token
         Auth._token_expiry].
    destruct (Str.nonempty token); [|apply (Hrun (_, cw2))].
    assert (E : Qle_bool (grant_time aenv cw + inject_Z (n - 300)) (now (api cw2)) = true).
    { apply Qle_bool_iff.
      assert (H0 : (inject_Z (n - 300) <= inject_Z 0)%Q) by (rewrite <- Zle_Qle; lia).
      change (inject_Z 0) with 0%Q in H0. lra. }
    rewrite E. apply (Hrun (_, cw2)).
Qed.

Lemma short_lived_token_is_never_reused_witness :
  Auth._token (Auth.__init__ "id" "secret" None) = None /\
  token_reply (granting "tok" 300) (token_requests (fresh_client_world 1000)) =
    Token "tok" 300 /\
  grant_in_range (grant_time (granting "tok" 300) (fresh_client_world 1000)) 300 /\
  300 <= 300 /\
  (grant_time (granting "tok" 300) (fresh_client_world 1000) <=
   now (api (fresh_client_world 1000)))%Q /\
  token_requests
    (snd (snd (Auth.get_auth_headers (granting "tok" 300)
                 (granted (Auth.__init__ "id" "secret" None) "tok"
                    (grant_time (granting "tok" 300) (fresh_client_world 1000)) 300,
                  fresh_client_world 1000)))) =
  S (token_requests (fresh_client_world 1000)).
Proof.
  assert (Hr : grant_in_range
                 (grant_time (granting "tok" 300) (fresh_client_world 1000)) 300)
    by (apply grant_in_range_example; lia).
  assert (Hn : 300 <= 300) by lia.
  assert (Hle : (grant_time (granting "tok" 300) (fresh_client_world 1000) <=
                 now (api (fresh_client_world 1000)))%Q) by discriminate.
  split; [reflexivity|]. split; [reflexivity|]. split; [exact Hr|].
  split; [exact Hn|]. split; [exact Hle|].
  exact (proj2 (short_lived_token_is_never_reused (granting "tok" 300)
                  (Auth.__init__ "id" "secret" None) (fresh_client_world 1000)
                  "tok" 300 eq_refl eq_refl Hr Hn)
           (granting "tok" 300) (fresh_client_world 1000) Hle).
Defined.

(** X17. [_get_access_token] stores the token before it computes the
    expiry.  When [expires_in - 300] seconds is more than a [timedelta]
    can hold, the first call of [get_auth_headers] raises [OverflowError]
    with the token stored and the expiry still [None]; from then on every
    call raises [TypeError] from the comparison with [None], without
    asking for a new token. *)
Theorem overflowing_grant_breaks_auth
    (aenv : AuthEnv) (a : Auth.MimecastAuth) (cw : ClientWorld)
    (token : string) (n : Z) :
  Auth._token a = None ->
  Auth._token_expiry a = None ->
  token_reply aenv (token_requests cw) = Token token n ->
  Str.nonempty token = true ->
  86399999999999 < n - 300 ->
  Auth.get_auth_headers aenv (a, cw) =
    (Raise OverflowError, (Auth.set_token a token, Auth.after_token_request aenv cw)) /\
  (forall (aenv' : AuthEnv) (cw2 : ClientWorld),
     Auth.get_auth_headers aenv' (Auth.set_token a token, cw2) =
       (Raise TypeError, (Auth.set_token a token, cw2))).
Proof.
  intros Hnone Hexp Hreply Hne Hbig. split.
  - unfold Auth.get_auth_headers, Auth.token_is_stale. rewrite Hnone.
    unfold Auth._get_access_token. rewrite Hreply.
    unfold Time.timedelta_seconds.
    assert (E : (n - 300 <=? 86399999999999) = false) by (apply Z.leb_gt; lia).
    now rewrite E, andb_false_r.
  - intros aenv' cw2. unfold Auth.get_auth_headers, Auth.token_is_stale.
    cbn [Auth.set_token Auth._token Auth._token_expiry].
    now rewrite Hne, Hexp.
Qed.

Lemma overflowing_grant_breaks_auth_witness :
  Auth._token (Auth.__init__ "id" "secret" None) = None /\
  Auth._token_expiry (Auth.__init__ "id" "secret" None) = None /\
  token_reply (granting "tok" 100000000000000)
    (token_requests (fresh_client_world 1000)) = Token "tok" 100000000000000 /\
  Str.nonempty "tok" = true /\
  86399999999999 < 100000000000000 - 300 /\
  Auth.get_auth_headers (granting "tok" 100000000000000)
    (Auth.__init__ "id" "secret" None, fresh_client_world 1000) =
    (Raise OverflowError,
     (Auth.set_token (Auth.__init__ "id" "secret" None) "tok",
      Auth.after_token_request (granting "tok" 100000000000000)
        (fresh_client_world 1000))) /\
  Auth.get_auth_headers (granting "tok" 3600)
    (Auth.set_token (Auth.__init__ "id" "secret" None) "tok", fresh_client_world 2000) =
    (Raise TypeError,
     (Auth.set_token (Auth.__init__ "id" "secret" None) "tok", fresh_client_world 2000)).
Proof.
  assert (Hbig : 86399999999999 < 100000000000000 - 300) by lia.
  destruct (overflowing_grant_breaks_auth (granting "tok" 100000000000000)
              (Auth.__init__ "id" "secret" None) (fresh_client_world 1000)
              "tok" 100000000000000 eq_refl eq_refl eq_refl eq_refl Hbig)
    as [Hfirst Hlater].
  do 4 (split; [reflexivity|]). split; [exact Hbig|]. split; [exact Hfirst|].
  exact (Hlater (granting "tok" 3600) (fresh_client_world 2000)).
Defined.

End AuthFacts.


(** ** Requests of the client *)

Section ClientFacts.

(** X18. A response that [MimecastClient.request] returns never has a
    status from 400 to 599. *)
Theorem request_returns_no_error_status
    (env : Env) (aenv : AuthEnv) (method endpoint : string)
    (s : Client.ClientSys) (r : Response) :
  fst <$> Client.request env aenv method endpoint s = Some (Ok r) ->
  status_code r < 400 \/ 600 <= status_code r.
Proof.
  destruct s as [c cw]. unfold Client.request.
  destruct (Auth.get_auth_headers aenv (Client.auth c, cw)) as [[hd|e] [a cw1]];
    [|discriminate].
  destruct (handle_request env method _ _) as [[[r0|e] [h w]]|]; try discriminate.
  unfold Client.raise_for_status.
  destruct ((400 <=? status_code r0) && (status_code r0 <? 600)) eqn:E;
    [discriminate|].
  simpl. intros Hrun; inversion Hrun; subst; clear Hrun.
  apply andb_false_iff in E as [E|E]; [left; now apply Z.leb_gt|right; now apply Z.ltb_ge].
Qed.

Lemma request_returns_no_error_status_witness :
  fst <$> Client.request (always (Resp plain_200)) (granting "tok" 3600)
            "GET" "/api/v2/discovery"
            (client "https://eu-api.mimecast.com" (handler 3 1 60 true),
             fresh_client_world 1000) = Some (Ok plain_200) /\
  (status_code plain_200 < 400 \/ 600 <= status_code plain_200).
Proof.
  assert (Hrun : fst <$> Client.request (always (Resp plain_200)) (granting "tok" 3600)
                   "GET" "/api/v2/discovery"
                   (client "https://eu-api.mimecast.com" (handler 3 1 60 true),
                    fresh_client_world 1000) = Some (Ok plain_200))
    by (vm_compute; reflexivity).
  split; [exact Hrun|].
  exact (request_returns_no_error_status _ _ _ _ _ _ Hrun).
Defined.



(** X20. When the client has no token and the token endpoint fails,
    [MimecastClient.request] raises that error after one request to the
    token endpoint: the transport is not called, nothing is slept, and
    the client object is unchanged. *)
Theorem request_stops_when_token_is_refused
    (env : Env) (aenv : AuthEnv) (method endpoint : string)
    (c : Client.MimecastClient) (cw : ClientWorld) (what : string) :
  Auth._token (Client.auth c) = None ->
  token_reply aenv (token_requests cw) = TokenError what ->
  Client.request env aenv method endpoint (c, cw) =
    Some (Raise (RequestException what), (c, Auth.after_token_request aenv cw)) /\
  sent (api (Auth.after_token_request aenv cw)) = sent (api cw) /\
  trace (api (Auth.after_token_request aenv cw)) = trace (api cw).
Proof.
  intros Hnone Hreply. split; [|split; reflexivity].
  unfold Client.request, Auth.get_auth_headers, Auth.token_is_stale.
  rewrite Hnone. unfold Auth._get_access_token. rewrite Hreply.
  destruct c; reflexivity.
Qed.

Lemma request_stops_when_token_is_refused_witness :
  Auth._token (Client.auth (client "https://eu-api.mimecast.com" (handler 3 1 60 true))) =
    None /\
  token_reply (refusing "401 Unauthorized") (token_requests (fresh_client_world 1000)) =
    TokenError "401 Unauthorized" /\
  Client.request (always (Resp plain_200)) (refusing "401 Unauthorized")
    "GET" "/api/v2/discovery"
    (client "https://eu-api.mimecast.com" (handler 3 1 60 true), fresh_client_world 1000) =
  Some (Raise (RequestException "401 Unauthorized"),
        (client "https://eu-api.mimecast.com" (handler 3 1 60 true),
         Auth.after_token_request (refusing "401 Unauthorized")
           (fresh_client_world 1000))).
Proof.
  split; [reflexivity|]. split; [reflexivity|].
  exact (proj1 (request_stops_when_token_is_refused (always (Resp plain_200))
                  (refusing "401 Unauthorized") "GET" "/api/v2/discovery"
                  (client "https://eu-api.mimecast.com" (handler 3 1 60 true))
                  (fresh_client_world 1000) "401 Unauthorized" eq_refl eq_refl)).
Defined.

(** X21. [MimecastClient.request] terminates for every client, world,
    token endpoint and transport; it makes at most one request to the
    token endpoint and at most [max_retries + 1] calls of the transport
    (none when [max_retries] is negative), and keeps the base URL and the
    retry configuration of the client. *)
Theorem request_call_budget
    (env : Env) (aenv : AuthEnv) (method endpoint : string)
    (c : Client.MimecastClient) (cw : ClientWorld) :
  exists (res : Result Response) (c' : Client.MimecastClient) (cw' : ClientWorld),
    Client.request env aenv method endpoint (c, cw) = Some (res, (c', cw')) /\
    (token_requests cw <= token_requests cw' <= S (token_requests cw))%nat /\
    (sent (api cw) <= sent (api cw'))%nat /\
    Z.of_nat (sent (api cw')) - Z.of_nat (sent (api cw)) <=
      Z.max 0 (max_retries (Client.rate_limiter c) + 1) /\
    config_of (Client.rate_limiter c') = config_of (Client.rate_limiter c) /\
    Client.base_url c' = Client.base_url c.
Proof.
  unfold Client.request.
  assert (Hauth : exists res a1 cw1,
            Auth.get_auth_headers aenv (Client.auth c, cw) = (res, (a1, cw1)) /\
            (token_requests cw <= token_requests cw1 <= S (token_requests cw))%nat /\
            sent (api cw1) = sent (api cw)).
  { unfold Auth.get_auth_headers.
    destruct (Auth.token_is_stale (Client.auth c) cw) as [[|]|e];
      [|eexists _, _, _; split; [reflexivity|]; split; [lia|reflexivity]
       |eexists _, _, _; split; [reflexivity|]; split; [lia|reflexivity]].
    unfold Auth._get_access_token.
    destruct (token_reply aenv (token_requests cw)) as [what|tok n];
      [eexists _, _, _; split; [reflexivity|]; cbn; split; [lia|reflexivity]|].
    destruct (Time.timedelta_seconds (n - 300)) as [d|e];
      [|eexists _, _, _; split; [reflexivity|]; cbn; split; [lia|reflexivity]].
    destruct (Time.datetime_add _ d);
      eexists _, _, _; (split; [reflexivity|]); cbn; (split; [lia|reflexivity]). }
  destruct Hauth as (res & a1 & cw1 & Hauth & Htok & Hsent). rewrite Hauth.
  destruct res as [hd|e].
  2:{ eexists _, _, _. split; [reflexivity|]. cbn. rewrite Hsent.
      repeat split; try lia. }
  destruct (handle_request_run env method
              (Client.request_url (Client.base_url c) endpoint)
              (Client.rate_limiter (Client.with_auth c a1)) (api cw1))
    as (res & h' & w' & tr & Hrun & Hcfg & _ & Hle & Hcalls & _).
  rewrite Hrun. cbn [Client.with_auth Client.rate_limiter] in *.
  destruct res as [r|e].
  - destruct (Client.raise_for_status r);
      eexists _, _, _; (split; [reflexivity|]); cbn; rewrite <- Hsent;
      repeat split; auto; lia.
  - eexists _, _, _. split; [reflexivity|]. cbn. rewrite <- Hsent.
    repeat split; auto; lia.
Qed.

End ClientFacts.

(** ** What a returned response leaves in the tracker *)

Section Recorded.

(** X22. When [handle_request] returns a response whose three rate-limit
    headers are integer literals with a reset in the range that
    [datetime.fromtimestamp] converts, the entry of the endpoint in the
    tracking dict is the snapshot of these headers, stamped with the time
    at which the call returns. *)
Theorem returned_quota_is_recorded
    (env : Env) (method url : string) (s : Sys) (r : Response)
    (h' : RateLimitHandler) (w' : World) (l rem t : Z) :
  handle_request env method url s = Some (Ok r, (h', w')) ->
  quota_of r l rem t ->
  Py.datetime_min <= t <= Py.datetime_max ->
  _rate_limits h' !! _get_endpoint_key url = Some (snapshot l rem t w').
Proof.
  unfold handle_request. intros Hrun Hq Ht.
  apply retry_loop_returns in Hrun as (h0 & Hup).
  rewrite (update_run_snapshot _ _ h0 w' l rem t Hq Ht) in Hup.
  inversion Hup; subst. apply tracking_lookup.
Qed.

Lemma returned_quota_is_recorded_witness :
  handle_request (always (Resp (response 200 (quota_headers "100" "0" "1700000000"))))
      "GET" test_url (handler 3 1 60 true, fresh_world 1000) =
    Some (Ok (response 200 (quota_headers "100" "0" "1700000000")),
          (tracking (handler 3 1 60 true) "v2/test"
             (snapshot 100 0 1700000000
                {| now := 1000 + 0; sent := 1; draws := 0;
                   trace := [EvRequest "GET" test_url] |}),
           {| now := 1000 + 0; sent := 1; draws := 0;
              trace := [EvRequest "GET" test_url] |})) /\
  quota_of (response 200 (quota_headers "100" "0" "1700000000")) 100 0 1700000000 /\
  Py.datetime_min <= 1700000000 <= Py.datetime_max /\
  _rate_limits
    (tracking (handler 3 1 60 true) "v2/test"
       (snapshot 100 0 1700000000
          {| now := 1000 + 0; sent := 1; draws := 0;
             trace := [EvRequest "GET" test_url] |}))
    !! _get_endpoint_key test_url =
  Some (snapshot 100 0 1700000000
          {| now := 1000 + 0; sent := 1; draws := 0;
             trace := [EvRequest "GET" test_url] |}).
Proof.
  assert (Hrun :
    handle_request (always (Resp (response 200 (quota_headers "100" "0" "1700000000"))))
        "GET" test_url (handler 3 1 60 true, fresh_world 1000) =
      Some (Ok (response 200 (quota_headers "100" "0" "1700000000")),
            (tracking (handler 3 1 60 true) "v2/test"
               (snapshot 100 0 1700000000
                  {| now := 1000 + 0; sent := 1; draws := 0;
                     trace := [EvRequest "GET" test_url] |}),
             {| now := 1000 + 0; sent := 1; draws := 0;
                trace := [EvRequest "GET" test_url] |})))
    by (vm_compute; reflexivity).
  assert (Hq : quota_of (response 200 (quota_headers "100" "0" "1700000000"))
                 100 0 1700000000) by (repeat split).
  assert (Ht : Py.datetime_min <= 1700000000 <= Py.datetime_max)
    by (unfold Py.datetime_min, Py.datetime_max; lia).
  split; [exact Hrun|]. split; [exact Hq|]. split; [exact Ht|].
  exact (returned_quota_is_recorded _ _ _ _ _ _ _ _ _ _ Hrun Hq Ht).
Defined.

End Recorded.

(** ** The constructor of the client *)

Section ClientInit.

(** The base URL after the default is never empty, and defaulting it again
    changes nothing. *)
Lemma or_default_nonempty (x : option string) :
  Str.nonempty (or_default x DEFAULT_BASE_URL) = true.
Proof.
  unfold or_default. destruct x as [s|]; [|reflexivity].
  destruct (Str.nonempty s) eqn:E; [exact E|reflexivity].
Qed.

Lemma or_default_again (x : option string) :
  or_default (Some (or_default x DEFAULT_BASE_URL)) DEFAULT_BASE_URL =
  or_default x DEFAULT_BASE_URL.
Proof.
  unfold or_default at 1. now rewrite or_default_nonempty.
Qed.

(** X23. [MimecastClient(...)] checks the credentials and nothing else.
    With a client id or secret that is [None] or empty it raises
    [ValueError], whatever the other arguments.  With both present it
    returns a client whose base URL is not empty (the default replaces
    [None] and the empty string) and is also the base URL of its
    authentication object, which holds no token yet; the retry
    configuration is stored as given, negative values included. *)
Theorem client_requires_credentials
    (client_id client_secret base_url : option string)
    (max_retries : Z) (min_backoff max_backoff : Q) (jitter : bool) :
  (Py.truthy client_id && Py.truthy client_secret = false ->
   Client.__init__ client_id client_secret base_url
     max_retries min_backoff max_backoff jitter = Raise ValueError) /\
  (Py.truthy client_id && Py.truthy client_secret = true ->
   exists c : Client.MimecastClient,
     Client.__init__ client_id client_secret base_url
       max_retries min_backoff max_backoff jitter = Ok c /\
     Str.nonempty (Client.base_url c) = true /\
     Auth.base_url (Client.auth c) = Client.base_url c /\
     Some (Auth.client_id (Client.auth c)) = client_id /\
     Some (Auth.client_secret (Client.auth c)) = client_secret /\
     Auth._token (Client.auth c) = None /\
     Client.rate_limiter c = handler max_retries min_backoff max_backoff jitter).
Proof.
  unfold Client.__init__, Py.truthy.
  destruct client_id as [id|], client_secret as [secret|]; cbn [andb].
  - destruct (Str.nonempty id && Str.nonempty secret); split;
      try discriminate; try reflexivity.
    intros _. eexists. split; [reflexivity|]. cbn.
    split; [apply or_default_nonempty|]. split; [apply or_default_again|].
    repeat split.
  - rewrite andb_false_r. split; [reflexivity|discriminate].
  - split; [reflexivity|discriminate].
  - split; [reflexivity|discriminate].
Qed.

Lemma client_requires_credentials_witness :
  (Py.truthy (Some "id") && Py.truthy (Some "") = false /\
   Client.__init__ (Some "id") (Some "") None 3 1 60 true = Raise ValueError) /\
  (Py.truthy (Some "id") && Py.truthy (Some "secret") = true /\
   exists c : Client.MimecastClient,
     Client.__init__ (Some "id") (Some "secret") (Some "") (-1) 1 60 true = Ok c /\
     Str.nonempty (Client.base_url c) = true /\
     Auth.base_url (Client.auth c) = Client.base_url c /\
     Some (Auth.client_id (Client.auth c)) = Some "id" /\
     Some (Auth.client_secret (Client.auth c)) = Some "secret" /\
     Auth._token (Client.auth c) = None /\
     Client.rate_limiter c = handler (-1) 1 60 true).
Proof.
  split.
  - split; [reflexivity|].
    exact (proj1 (client_requires_credentials (Some "id") (Some "") None 3 1 60 true)
             eq_refl).
  - split; [reflexivity|].
    exact (proj2 (client_requires_credentials (Some "id") (Some "secret") (Some "")
                    (-1) 1 60 true) eq_refl).
Defined.

End ClientInit.

